(** * filesharegocli: a shallow embedding of [main.go]

    The program is a command-line shim over an IPFS node library (kubo and
    boxo).  Its own code is the flag dispatch of [main], the start-up
    sequence of an ephemeral node, [GetCidStrFromString], and the two
    straight-line sequences [UploadFiles] and [DownloadFromCid].

    The embedding keeps that code as it is written, statement by
    statement, in a small monad [M] over the state of the process.  What
    the code calls is modelled beside it:

    - Go strings, [strings.LastIndex], [strings.Trim], slicing with its
      bounds check, [filepath.Clean], [filepath.Base]: as functions;
    - the file system: a tree of named nodes, with [os.Stat],
      [os.MkdirAll] and [files.WriteTo] on it;
    - the IPFS node: the DAGs it holds and those its peers provide, found
      by CID; the CID of a tree, its text and the parser of the text are
      parameters ([Lib]), the program never looks inside them;
    - what can fail outside the program: a table of faults ([Env]), so
      that every statement holds for every pattern of failures;
    - signals: the list of those that arrive while the process waits.

    An [Outcome] is a return, a panic, a call that never returns, or the
    end of the process by a signal. *)

From Stdlib Require Import String Ascii List ZArith Lia Bool DecimalString.
Import ListNotations.
Open Scope string_scope.

(* ------------------------------------------------------------------ *)
(** ** Go strings

    A Go string is a sequence of bytes; [string] (a list of 8-bit [ascii])
    is that.  Indices are Go [int]s, kept in [Z]. *)

Module GoStrings.

Definition len (s : string) : Z := Z.of_nat (String.length s).

Fixpoint drop (n : nat) (s : string) : string :=
  match n, s with
  | O, _ => s
  | S n', String _ s' => drop n' s'
  | S _, EmptyString => EmptyString
  end.

(** [s[lo:]]; [None] is the run-time panic "slice bounds out of range". *)
Definition slice_from (s : string) (lo : Z) : option string :=
  if ((lo <? 0) || (len s <? lo))%Z then None
  else Some (drop (Z.to_nat lo) s).

(** [strings.HasPrefix s prefix]. *)
Fixpoint HasPrefix (s prefix : string) {struct prefix} : bool :=
  match prefix, s with
  | EmptyString, _ => true
  | String _ _, EmptyString => false
  | String a p', String b s' => Ascii.eqb a b && HasPrefix s' p'
  end.

Fixpoint last_index_from (s substr : string) (i acc : Z) : Z :=
  let acc' := if HasPrefix s substr then i else acc in
  match s with
  | EmptyString => acc'
  | String _ s' => last_index_from s' substr (i + 1) acc'
  end.

(** [strings.LastIndex]: the index of the last instance of [substr] in [s],
    or -1. *)
Definition LastIndex (s substr : string) : Z :=
  last_index_from s substr 0 (-1).

Definition in_cutset (cutset : string) (c : ascii) : bool :=
  existsb (Ascii.eqb c) (list_ascii_of_string cutset).

Fixpoint trimLeft (cutset s : string) : string :=
  match s with
  | EmptyString => EmptyString
  | String c s' => if in_cutset cutset c then trimLeft cutset s' else s
  end.

Fixpoint trimRight (cutset s : string) : string :=
  match s with
  | EmptyString => EmptyString
  | String c s' =>
      match trimRight cutset s' with
      | EmptyString =>
          if in_cutset cutset c then EmptyString else String c EmptyString
      | r => String c r
      end
  end.

(** [strings.Trim] for a cutset of ASCII bytes (the branch Go takes for
    such a cutset trims byte by byte, the right end first). *)
Definition Trim (s cutset : string) : string :=
  if (String.eqb s "" || String.eqb cutset "")%bool then s
  else trimLeft cutset (trimRight cutset s).

End GoStrings.

(* ------------------------------------------------------------------ *)
(** ** [GetCidStrFromString] (main.go, lines 237-242) *)

Definition cr : ascii := Ascii.ascii_of_nat 13.
Definition lf : ascii := Ascii.ascii_of_nat 10.

(** The cutset [" \r\n"]. *)
Definition cid_cutset : string :=
  String " " (String cr (String lf EmptyString)).

Definition GetCidStrFromString (str : string) : option string :=
  match GoStrings.slice_from str (GoStrings.LastIndex str "/" + 1) with
  | None => None
  | Some cidStr => Some (GoStrings.Trim cidStr cid_cutset)
  end.

(** Predicates used to state what the function returns. *)

Fixpoint no_slash (s : string) : bool :=
  match s with
  | EmptyString => true
  | String c s' => negb (Ascii.eqb c "/") && no_slash s'
  end.

Fixpoint all_in (cutset s : string) : bool :=
  match s with
  | EmptyString => true
  | String c s' => GoStrings.in_cutset cutset c && all_in cutset s'
  end.

Definition starts_clean (cutset s : string) : Prop :=
  forall c r, s = String c r -> GoStrings.in_cutset cutset c = false.

Definition ends_clean (cutset s : string) : Prop :=
  forall p c, s = p ++ String c EmptyString ->
              GoStrings.in_cutset cutset c = false.

(* ------------------------------------------------------------------ *)
(** ** Paths ([path/filepath], Unix)

    [Clean] is purely lexical: it splits at the separator, drops empty and
    [.] elements, and resolves [..] against the element before it. *)

Module Filepath.

(** [strings.Split(s, "/")]. *)
Fixpoint split (s : string) : list string :=
  match s with
  | EmptyString => [EmptyString]
  | String c s' =>
      if Ascii.eqb c "/" then EmptyString :: split s'
      else match split s' with
           | h :: t => String c h :: t
           | [] => [String c EmptyString]
           end
  end.

Definition IsAbs (path : string) : bool := GoStrings.HasPrefix path "/".

Definition clean_step (rooted : bool) (stack : list string) (elem : string)
  : list string :=
  if (String.eqb elem "" || String.eqb elem ".")%bool then stack
  else if String.eqb elem ".." then
    match stack with
    | top :: rest => if String.eqb top ".." then elem :: stack else rest
    | [] => if rooted then [] else [elem]
    end
  else elem :: stack.

(** The elements of the cleaned path, outermost first. *)
Definition elements (path : string) : list string :=
  rev (fold_left (clean_step (IsAbs path)) (split path) []).

Fixpoint join (elems : list string) : string :=
  match elems with
  | [] => ""
  | [e] => e
  | e :: rest => e ++ "/" ++ join rest
  end.

Definition Clean (path : string) : string :=
  let body := join (elements path) in
  if IsAbs path then "/" ++ body
  else if String.eqb body "" then "." else body.

Definition Join (elem : list string) : string :=
  match filter (fun e => negb (String.eqb e "")) elem with
  | [] => ""
  | es => Clean (join es)
  end.

Fixpoint last_element (elems : list string) (acc : string) : string :=
  match elems with
  | [] => acc
  | e :: rest => last_element rest (if String.eqb e "" then acc else e)
  end.

(** [filepath.Base]: the last element of the path, trailing separators
    removed; ["."] for the empty path, ["/"] for a path of separators. *)
Definition Base (path : string) : string :=
  if String.eqb path "" then "."
  else match last_element (split path) "" with
       | EmptyString => "/"
       | e => e
       end.

End Filepath.

(* ------------------------------------------------------------------ *)
(** ** File trees

    One tree type serves the local file system and the UnixFS nodes of the
    library ([files.Node]): a regular file with its bytes, or a directory
    with its named entries in listing order.  Symbolic links and special
    files are left out. *)

#[warnings="-register-all"]
Inductive Node : Type :=
| File (data : list Byte.byte)
| Dir (entries : list (string * Node)).

Definition IsDir (n : Node) : bool :=
  match n with Dir _ => true | File _ => false end.

Fixpoint assoc (name : string) (es : list (string * Node)) : option Node :=
  match es with
  | [] => None
  | (k, v) :: rest => if String.eqb k name then Some v else assoc name rest
  end.

Fixpoint set_entry (name : string) (v : Node) (es : list (string * Node))
  : list (string * Node) :=
  match es with
  | [] => []
  | (k, v0) :: rest =>
      if String.eqb k name then (k, v) :: rest
      else (k, v0) :: set_entry name v rest
  end.

(** The node found by walking [p] down from [n]. *)
Fixpoint fs_lookup (n : Node) (p : list string) {struct p} : option Node :=
  match p with
  | [] => Some n
  | c :: p' =>
      match n with
      | File _ => None
      | Dir es =>
          match assoc c es with
          | Some ch => fs_lookup ch p'
          | None => None
          end
      end
  end.

(** [os.MkdirAll]: every missing directory along [p] is created; a regular
    file in the way is an error ([None]). *)
Fixpoint fs_mkdir_all (p : list string) (n : Node) {struct p} : option Node :=
  match n with
  | File _ => None
  | Dir es =>
      match p with
      | [] => Some n
      | c :: p' =>
          match assoc c es with
          | Some ch =>
              match fs_mkdir_all p' ch with
              | Some ch' => Some (Dir (set_entry c ch' es))
              | None => None
              end
          | None =>
              match fs_mkdir_all p' (Dir []) with
              | Some ch' => Some (Dir (es ++ [(c, ch')]))
              | None => None
              end
          end
      end
  end.

(** A new node [nd] at [p]: the parent must be an existing directory and
    the name must be free. *)
Fixpoint fs_create (p : list string) (nd : Node) (n : Node) {struct p}
  : option Node :=
  match p with
  | [] => None
  | c :: p' =>
      match n with
      | File _ => None
      | Dir es =>
          match assoc c es with
          | Some ch =>
              match fs_create p' nd ch with
              | Some ch' => Some (Dir (set_entry c ch' es))
              | None => None
              end
          | None =>
              match p' with
              | [] => Some (Dir (es ++ [(c, nd)]))
              | _ :: _ => None
              end
          end
      end
  end.

Definition nul : ascii := Ascii.zero.

Fixpoint filename_chars (s : string) : bool :=
  match s with
  | EmptyString => true
  | String c s' =>
      negb (Ascii.eqb c "/") && negb (Ascii.eqb c nul) && filename_chars s'
  end.

(** The entry names [files.WriteTo] accepts. *)
Definition valid_entry_name (name : string) : bool :=
  negb (String.eqb name "") && negb (String.eqb name ".") &&
  negb (String.eqb name "..") && filename_chars name.

Definition mem_string (x : string) (l : list string) : bool :=
  existsb (String.eqb x) l.

(** A tree [files.WriteTo] writes in full: every entry name is accepted and
    no directory lists a name twice (the second one would find its path
    taken). *)
Fixpoint writable (n : Node) : bool :=
  match n with
  | File _ => true
  | Dir es =>
      (fix go (es : list (string * Node)) (seen : list string) : bool :=
         match es with
         | [] => true
         | (name, ch) :: rest =>
             valid_entry_name name && negb (mem_string name seen) &&
             writable ch && go rest (name :: seen)
         end) es []
  end.

(** boxo [files.isHidden]: a name that starts with a dot, other than [.]
    and [..]. *)
Definition isHidden (name : string) : bool :=
  match name with
  | EmptyString => false
  | String c _ =>
      Ascii.eqb c "." && negb (String.eqb name ".") &&
      negb (String.eqb name "..")
  end.

(** The tree [files.NewSerialFile(path, includeHidden, st)] serves for the
    tree [n] found at [path]: without [includeHidden], every directory
    skips its hidden entries.  The root itself is not filtered. *)
Fixpoint serial_tree (includeHidden : bool) (n : Node) : Node :=
  match n with
  | File d => File d
  | Dir es =>
      Dir ((fix go (es : list (string * Node)) : list (string * Node) :=
              match es with
              | [] => []
              | (name, ch) :: rest =>
                  if (includeHidden || negb (isHidden name))%bool
                  then (name, serial_tree includeHidden ch) :: go rest
                  else go rest
              end) es)
  end.

(** No directory of the tree has a hidden entry. *)
Fixpoint no_hidden (n : Node) : bool :=
  match n with
  | File _ => true
  | Dir es =>
      (fix go (es : list (string * Node)) : bool :=
         match es with
         | [] => true
         | (name, ch) :: rest =>
             negb (isHidden name) && no_hidden ch && go rest
         end) es
  end.

(** [Size()] of a [files.Node]: the bytes of its regular files. *)
Fixpoint tree_size (n : Node) : Z :=
  match n with
  | File d => Z.of_nat (List.length d)
  | Dir es =>
      (fix go (es : list (string * Node)) : Z :=
         match es with
         | [] => 0
         | (_, ch) :: rest => tree_size ch + go rest
         end)%Z es
  end.

(* ------------------------------------------------------------------ *)
(** ** The IPFS library, as the program sees it

    The content-addressing functions of the library are parameters: the
    program never looks inside a CID.  [dag_cid] is the root CID the DAG
    builder gives a UnixFS tree, [cid_String] and [cid_Decode] are the text
    form of a CID and its parser ([cid.Cid.String], [cid.Decode]),
    [file_links] is the number of (unnamed) links of a file's root block,
    and [humanize_Bytes] is [humanize.Bytes]. *)

Definition Cid := string.

Record Lib : Type := {
  dag_cid : Node -> Cid;
  cid_String : Cid -> string;
  cid_Decode : string -> option Cid;
  file_links : list Byte.byte -> nat;
  humanize_Bytes : Z -> string
}.

(** Go's [error]: [None] is [nil]. *)
Definition error := option string.

Record Experiments : Type := {
  FilestoreEnabled : bool;
  UrlstoreEnabled : bool;
  Libp2pStreamMounting : bool;
  P2pHttpProxy : bool
}.

Record Config : Type := {
  Identity : string;
  Experimental : Experiments
}.

Record Repo : Type := { repo_path : string; repo_config : Config }.

Inductive RoutingOption : Type := DHTOption | DHTClientOption.

Record BuildCfg : Type := {
  Online : bool;
  Routing : RoutingOption;
  BuildRepo : option Repo
}.

Record IpfsNode : Type := { node_cfg : BuildCfg }.
Record CoreAPI : Type := { api_node : IpfsNode }.
Record PluginLoader : Type := { plugin_dir : string }.

(** [path.ImmutablePath]: the path [/ipfs/<cid>]. *)
Record ImmutablePath : Type := { path_cid : Cid }.

Record FileInfo : Type := { fi_IsDir : bool }.

(** A [context.Context], reduced to what a blocking call consults. *)
Record Context : Type := { ctx_deadline : option Z }.

Inductive Signal : Type := SIGINT | SIGTERM | SIGHUP | SIGQUIT | SIGKILL.

Definition Signal_eqb (a b : Signal) : bool :=
  match a, b with
  | SIGINT, SIGINT | SIGTERM, SIGTERM | SIGHUP, SIGHUP
  | SIGQUIT, SIGQUIT | SIGKILL, SIGKILL => true
  | _, _ => false
  end.

(** The library and system calls that can fail for reasons outside the
    program (disk, network, permissions). *)
Inductive LibCall : Type :=
| NewPluginLoader | PluginsInitialize | PluginsInject
| OsMkdirTemp | ConfigInit | FsrepoInit | FsrepoOpen
| CoreNewNode | NewCoreAPI
| OsStat | NewSerialFile | UnixfsAdd | UnixfsLs | NodeSize
| UnixfsGet | OsMkdirAll | FilesWriteTo.

(** Ghost record of the two operations of the program. *)
Inductive OpCall : Type :=
| OpUpload (flagFilePath : string)
| OpDownload (cidStr : string).

(* ------------------------------------------------------------------ *)
(** ** The world of one process

    [Env] is what the process finds and cannot change; [State] is what its
    calls change.  [signals] are the signals that reach the process while
    it waits on its channel, in order of arrival.  [calls] and [setup_runs]
    are ghost counters. *)

Record Env : Type := {
  cwd : string;
  rand : nat -> string;
  faults : LibCall -> error;
  flagExp : bool;
  remote_dags : list Node
}.

Record State : Type := mkState {
  fs_root : Node;
  rand_pos : nat;
  repos : list Repo;
  running : list IpfsNode;
  local_dags : list Node;
  loadPluginsOnce : bool;
  setup_runs : nat;
  spinners : nat;
  stdout : list string;
  calls : list OpCall;
  signals : list Signal;
  notify : list Signal
}.

Definition set_fs_root (v : Node) (s : State) : State :=
  mkState v (rand_pos s) (repos s) (running s) (local_dags s)
          (loadPluginsOnce s) (setup_runs s) (spinners s) (stdout s)
          (calls s) (signals s) (notify s).
Definition set_rand_pos (v : nat) (s : State) : State :=
  mkState (fs_root s) v (repos s) (running s) (local_dags s)
          (loadPluginsOnce s) (setup_runs s) (spinners s) (stdout s)
          (calls s) (signals s) (notify s).
Definition set_repos (v : list Repo) (s : State) : State :=
  mkState (fs_root s) (rand_pos s) v (running s) (local_dags s)
          (loadPluginsOnce s) (setup_runs s) (spinners s) (stdout s)
          (calls s) (signals s) (notify s).
Definition set_running (v : list IpfsNode) (s : State) : State :=
  mkState (fs_root s) (rand_pos s) (repos s) v (local_dags s)
          (loadPluginsOnce s) (setup_runs s) (spinners s) (stdout s)
          (calls s) (signals s) (notify s).
Definition set_local_dags (v : list Node) (s : State) : State :=
  mkState (fs_root s) (rand_pos s) (repos s) (running s) v
          (loadPluginsOnce s) (setup_runs s) (spinners s) (stdout s)
          (calls s) (signals s) (notify s).
Definition set_loadPluginsOnce (v : bool) (s : State) : State :=
  mkState (fs_root s) (rand_pos s) (repos s) (running s) (local_dags s) v
          (setup_runs s) (spinners s) (stdout s) (calls s) (signals s)
          (notify s).
Definition set_setup_runs (v : nat) (s : State) : State :=
  mkState (fs_root s) (rand_pos s) (repos s) (running s) (local_dags s)
          (loadPluginsOnce s) v (spinners s) (stdout s) (calls s)
          (signals s) (notify s).
Definition set_spinners (v : nat) (s : State) : State :=
  mkState (fs_root s) (rand_pos s) (repos s) (running s) (local_dags s)
          (loadPluginsOnce s) (setup_runs s) v (stdout s) (calls s)
          (signals s) (notify s).
Definition set_stdout (v : list string) (s : State) : State :=
  mkState (fs_root s) (rand_pos s) (repos s) (running s) (local_dags s)
          (loadPluginsOnce s) (setup_runs s) (spinners s) v (calls s)
          (signals s) (notify s).
Definition set_calls (v : list OpCall) (s : State) : State :=
  mkState (fs_root s) (rand_pos s) (repos s) (running s) (local_dags s)
          (loadPluginsOnce s) (setup_runs s) (spinners s) (stdout s) v
          (signals s) (notify s).
Definition set_signals (v : list Signal) (s : State) : State :=
  mkState (fs_root s) (rand_pos s) (repos s) (running s) (local_dags s)
          (loadPluginsOnce s) (setup_runs s) (spinners s) (stdout s)
          (calls s) v (notify s).
Definition set_notify (v : list Signal) (s : State) : State :=
  mkState (fs_root s) (rand_pos s) (repos s) (running s) (local_dags s)
          (loadPluginsOnce s) (setup_runs s) (spinners s) (stdout s)
          (calls s) (signals s) v.

(** How a call ends: it returns, it panics (the process exits with status
    2), it never returns, or the process is ended by a signal it does not
    handle. *)
Inductive Outcome (A : Type) : Type :=
| Ret (a : A) (s : State)
| Panic (msg : string) (s : State)
| Blocked (s : State)
| Killed (sig : Signal) (s : State).

Arguments Ret {A} a s.
Arguments Panic {A} msg s.
Arguments Blocked {A} s.
Arguments Killed {A} sig s.

Definition M (A : Type) : Type := State -> Outcome A.

Definition ret {A} (a : A) : M A := fun s => Ret a s.

Definition bind {A B} (m : M A) (k : A -> M B) : M B :=
  fun s =>
    match m s with
    | Ret a s' => k a s'
    | Panic e s' => Panic e s'
    | Blocked s' => Blocked s'
    | Killed g s' => Killed g s'
    end.

Definition panic {A} (msg : string) : M A := fun s => Panic msg s.

Notation "x <- c1 ;; c2" := (bind c1 (fun x => c2))
  (at level 61, c1 at next level, right associativity).
Notation "' pat <- c1 ;; c2" :=
  (bind c1 (fun x => match x with pat => c2 end))
  (at level 61, pat pattern, c1 at next level, right associativity).
Notation "c1 ;; c2" := (bind c1 (fun _ => c2))
  (at level 61, right associativity).

Definition final_state {A} (o : Outcome A) : State :=
  match o with
  | Ret _ s | Panic _ s | Blocked s | Killed _ s => s
  end.

(** How the process ends when [main] ends with the given outcome. *)
Inductive ProcessEnd : Type :=
| Exited (status : Z)
| Signaled (sig : Signal)
| StillRunning.

Definition process_end {A} (o : Outcome A) : ProcessEnd :=
  match o with
  | Ret _ _ => Exited 0
  | Panic _ _ => Exited 2
  | Blocked _ => StillRunning
  | Killed g _ => Signaled g
  end.

(** A deferred call runs when the function returns and when it panics. *)
Definition defer_ {A} (d : M unit) (body : M A) : M A :=
  fun s =>
    match body s with
    | Ret a s' =>
        match d s' with
        | Ret _ s'' => Ret a s''
        | Panic e s'' => Panic e s''
        | Blocked s'' => Blocked s''
        | Killed g s'' => Killed g s''
        end
    | Panic e s' =>
        match d s' with
        | Ret _ s'' => Panic e s''
        | Panic e' s'' => Panic e' s''
        | Blocked s'' => Blocked s''
        | Killed g s'' => Killed g s''
        end
    | Blocked s' => Blocked s'
    | Killed g s' => Killed g s'
    end.

Definition nl : string := String lf EmptyString.

Definition itoa (n : nat) : string := NilZero.string_of_uint (Nat.to_uint n).

Definition nil_deref : string :=
  "runtime error: invalid memory address or nil pointer dereference".

Definition deref {A} (p : option A) : M A :=
  match p with
  | Some a => ret a
  | None => panic nil_deref
  end.

(** [fmt.Errorf(format, err)] with the one [%s]. *)
Definition Errorf (format e : string) : error := Some (format ++ e).

Definition fmt_Print (text : string) : M unit :=
  fun s => Ret tt (set_stdout (stdout s ++ [text]) s).

Definition fmt_Println (text : string) : M unit := fmt_Print (text ++ nl).

(* ------------------------------------------------------------------ *)
(** ** The calls the program makes

    Each call first consults the [faults] of the environment, then does
    what it does when nothing outside goes wrong.  A Go result [(v, err)]
    is a pair; a nil pointer is [None]. *)

Section Program.

Variable L : Lib.
Variable E : Env.

Definition loader_NewPluginLoader (pluginDir : string)
  : M (option PluginLoader * error) :=
  match faults E NewPluginLoader with
  | Some e => ret (None, Some e)
  | None => ret (Some {| plugin_dir := pluginDir |}, None)
  end.

Definition PluginLoader_Initialize (pl : option PluginLoader) : M error :=
  _ <- deref pl ;; ret (faults E PluginsInitialize).

Definition PluginLoader_Inject (pl : option PluginLoader) : M error :=
  _ <- deref pl ;; ret (faults E PluginsInject).

(** [os.MkdirTemp("", pattern)]: a fresh directory under the system's
    temporary directory.  The repositories of the nodes live in [repos],
    apart from the tree the user sees. *)
Definition os_MkdirTemp (dir pattern : string) : M (string * error) :=
  fun s =>
    match faults E OsMkdirTemp with
    | Some e => Ret ("", Some e) s
    | None =>
        Ret (Filepath.Join [(if String.eqb dir "" then "/tmp" else dir);
                            pattern ++ rand E (rand_pos s)], None)
            (set_rand_pos (S (rand_pos s)) s)
    end.

(** [config.Init(io.Discard, nBitsForKeypair)]: the default configuration
    with a freshly generated identity. *)
Definition config_Init (nBitsForKeypair : Z) : M (option Config * error) :=
  fun s =>
    match faults E ConfigInit with
    | Some e => Ret (None, Some e) s
    | None =>
        Ret (Some {| Identity := rand E (rand_pos s);
                     Experimental :=
                       {| FilestoreEnabled := false;
                          UrlstoreEnabled := false;
                          Libp2pStreamMounting := false;
                          P2pHttpProxy := false |} |}, None)
            (set_rand_pos (S (rand_pos s)) s)
    end.

Definition fsrepo_Init (repoPath : string) (cfg : option Config) : M error :=
  c <- deref cfg ;;
  fun s =>
    match faults E FsrepoInit with
    | Some e => Ret (Some e) s
    | None =>
        Ret None (set_repos ({| repo_path := repoPath; repo_config := c |}
                               :: repos s) s)
    end.

Definition fsrepo_Open (repoPath : string) : M (option Repo * error) :=
  fun s =>
    match faults E FsrepoOpen with
    | Some e => Ret (None, Some e) s
    | None =>
        match find (fun r => String.eqb (repo_path r) repoPath) (repos s) with
        | Some r => Ret (Some r, None) s
        | None => Ret (None, Some "no IPFS repo found") s
        end
    end.

Definition core_NewNode (ctx : Context) (cfg : BuildCfg)
  : M (option IpfsNode * error) :=
  fun s =>
    match faults E CoreNewNode with
    | Some e => Ret (None, Some e) s
    | None =>
        let node := {| node_cfg := cfg |} in
        Ret (Some node, None) (set_running (node :: running s) s)
    end.

Definition coreapi_NewCoreAPI (node : option IpfsNode)
  : M (option CoreAPI * error) :=
  n <- deref node ;;
  match faults E NewCoreAPI with
  | Some e => ret (None, Some e)
  | None => ret (Some {| api_node := n |}, None)
  end.

(** A path of the program, resolved against the working directory. *)
Definition resolve (path : string) : list string :=
  Filepath.elements
    (if Filepath.IsAbs path then path else cwd E ++ "/" ++ path).

Definition os_Stat (path : string) : M (option FileInfo * error) :=
  fun s =>
    match faults E OsStat with
    | Some e => Ret (None, Some e) s
    | None =>
        if String.eqb path ""
        then Ret (None, Some "stat : no such file or directory") s
        else
          match fs_lookup (fs_root s) (resolve path) with
          | Some n => Ret (Some {| fi_IsDir := IsDir n |}, None) s
          | None =>
              Ret (None,
                   Some ("stat " ++ path ++ ": no such file or directory")) s
          end
    end.

Definition FileInfo_IsDir (fi : option FileInfo) : M bool :=
  i <- deref fi ;; ret (fi_IsDir i).

(** [files.NewSerialFile(path, includeHidden, stat)].  The tree is read
    when the call is made. *)
Definition files_NewSerialFile (path : string) (includeHidden : bool)
           (stat : option FileInfo) : M (option Node * error) :=
  _ <- deref stat ;;
  fun s =>
    match faults E NewSerialFile with
    | Some e => Ret (None, Some e) s
    | None =>
        match fs_lookup (fs_root s) (resolve path) with
        | Some n => Ret (Some (serial_tree includeHidden n), None) s
        | None =>
            Ret (None,
                 Some ("open " ++ path ++ ": no such file or directory")) s
        end
    end.

(** [files.NewSliceDirectory([]files.DirEntry{...})]. *)
Definition files_NewSliceDirectory (entries : list (string * Node)) : Node :=
  Dir entries.

Definition ImmutablePath_String (p : ImmutablePath) : string :=
  "/ipfs/" ++ cid_String L (path_cid p).

Definition path_FromCid (c : Cid) : ImmutablePath := {| path_cid := c |}.

(** The DAGs the node can obtain: its own and those of its peers. *)
Definition available (s : State) : list Node :=
  local_dags s ++ remote_dags E.

Definition find_dag (c : Cid) (dags : list Node) : option Node :=
  find (fun n => String.eqb (dag_cid L n) c) dags.

(** Resolving a CID nobody provides does not end by itself: it ends when
    the deadline of the context passes, and never when there is none. *)
Definition await_dag (ctx : Context) (c : Cid) : M (option Node * error) :=
  fun s =>
    match find_dag c (available s) with
    | Some n => Ret (Some n, None) s
    | None =>
        match ctx_deadline ctx with
        | Some _ => Ret (None, Some "context deadline exceeded") s
        | None => Blocked s
        end
    end.

(** [api.Unixfs().Add(ctx, node)]: the DAG is built and kept by the node,
    which provides it from then on. *)
Definition unixfs_Add (api : option CoreAPI) (ctx : Context)
           (node : option Node) : M (ImmutablePath * error) :=
  _ <- deref api ;;
  nd <- deref node ;;
  fun s =>
    match faults E UnixfsAdd with
    | Some e => Ret (path_FromCid "", Some e) s
    | None =>
        Ret (path_FromCid (dag_cid L nd), None)
            (set_local_dags (nd :: local_dags s) s)
    end.

(** The names [Ls] sends on its channel. *)
Definition ls_names (n : Node) : list string :=
  match n with
  | Dir es => map fst es
  | File d => repeat "" (file_links L d)
  end.

Definition unixfs_Ls (api : option CoreAPI) (ctx : Context)
           (p : ImmutablePath) : M (list string * error) :=
  _ <- deref api ;;
  match faults E UnixfsLs with
  | Some e => ret ([], Some e)
  | None =>
      '(n, err) <- await_dag ctx (path_cid p) ;;
      match n with
      | Some nd => ret (ls_names nd, err)
      | None => ret ([], err)
      end
  end.

Definition unixfs_Get (api : option CoreAPI) (ctx : Context)
           (p : ImmutablePath) : M (option Node * error) :=
  _ <- deref api ;;
  match faults E UnixfsGet with
  | Some e => ret (None, Some e)
  | None => await_dag ctx (path_cid p)
  end.

Definition Node_Size (node : option Node) : M (Z * error) :=
  nd <- deref node ;;
  match faults E NodeSize with
  | Some e => ret (0%Z, Some e)
  | None => ret (tree_size nd, None)
  end.

Definition uint64 (z : Z) : Z := (z mod 2 ^ 64)%Z.

(** [cid.Parse] of a string without [/ipfs/] in it. *)
Definition cid_Parse (v : string) : Cid * error :=
  match cid_Decode L v with
  | Some c => (c, None)
  | None => ("", Some ("invalid cid: " ++ v))
  end.

Definition os_MkdirAll (path : string) (perm : Z) : M error :=
  fun s =>
    match faults E OsMkdirAll with
    | Some e => Ret (Some e) s
    | None =>
        match fs_mkdir_all (resolve path) (fs_root s) with
        | Some r => Ret None (set_fs_root r s)
        | None => Ret (Some ("mkdir " ++ path ++ ": not a directory")) s
        end
    end.

(** [files.WriteTo(nd, fpath)].  A write that fails leaves the tree as it
    was (the program panics on it). *)
Definition files_WriteTo (nd : option Node) (fpath : string) : M error :=
  fun s =>
    match faults E FilesWriteTo with
    | Some e => Ret (Some e) s
    | None =>
        match nd with
        | None => Ret (Some "file type is not supported") s
        | Some n =>
            match fs_lookup (fs_root s) (resolve fpath) with
            | Some _ => Ret (Some "path already exists, overwriting not allowed") s
            | None =>
                if writable n then
                  match fs_create (resolve fpath) n (fs_root s) with
                  | Some r => Ret None (set_fs_root r s)
                  | None =>
                      Ret (Some ("mkdir " ++ fpath
                                 ++ ": no such file or directory")) s
                  end
                else Ret (Some "invalid directory entry name") s
            end
        end
    end.

Definition context_Background : Context := {| ctx_deadline := None |}.

(** Cancelling the context stops the nodes built on it: they provide
    nothing any more. *)
Definition cancel_nodes : M unit :=
  fun s => Ret tt (set_running [] (set_local_dags [] s)).

Definition context_WithCancel (parent : Context) : Context * M unit :=
  (parent, cancel_nodes).

(** [ctx.Done()] returns the channel of the context; the program does
    not receive from it. *)
Definition Context_Done (ctx : Context) : M unit := ret tt.

Definition signal_Notify (sigs : list Signal) : M unit :=
  fun s => Ret tt (set_notify sigs s).

(** [<-quitChannel]: the next signal wakes the receiver when the channel
    was registered for it; any other signal ends the process. *)
Definition recv_signal : M Signal :=
  fun s =>
    match signals s with
    | [] => Blocked s
    | g :: rest =>
        if existsb (Signal_eqb g) (notify s)
        then Ret g (set_signals rest s)
        else Killed g (set_signals rest s)
    end.

(** [loadPluginsOnce.Do(f)]: [f] runs on the first call only. *)
Definition sync_Once_Do {A} (f : M A) : M (option A) :=
  fun s =>
    if loadPluginsOnce s then Ret None s
    else (a <- f ;; ret (Some a)) (set_loadPluginsOnce true s).

(** [go f()]: the goroutine runs beside the caller. *)
Definition go_ (f : M unit) : M unit :=
  fun s => Ret tt (set_spinners (S (spinners s)) s).

(** Ghost: the operation [op] has been entered. *)
Definition enter (op : OpCall) : M unit :=
  fun s => Ret tt (set_calls (calls s ++ [op]) s).

(* ------------------------------------------------------------------ *)
(** ** The program (main.go) *)

(** Lines 32-49. *)
Definition SetupPlugins (externalPluginsPath : string) : M error :=
  (fun s => Ret tt (set_setup_runs (S (setup_runs s)) s)) ;;
  '(plugins, err) <-
    loader_NewPluginLoader (Filepath.Join [externalPluginsPath; "plugins"]) ;;
  match err with
  | Some e => ret (Errorf "error loading plugins: " e)
  | None =>
      err <- PluginLoader_Initialize plugins ;;
      match err with
      | Some e => ret (Errorf "error initializing plugins: " e)
      | None =>
          err <- PluginLoader_Inject plugins ;;
          match err with
          | Some e => ret (Errorf "error initializing plugins: " e)
          | None => ret None
          end
      end
  end.

Definition enable_experiments (cfg : Config) : Config :=
  {| Identity := Identity cfg;
     Experimental := {| FilestoreEnabled := true;
                        UrlstoreEnabled := true;
                        Libp2pStreamMounting := true;
                        P2pHttpProxy := true |} |}.

(** Lines 51-86. *)
Definition CreateTempRepo : M (string * error) :=
  '(repoPath, err) <- os_MkdirTemp "" "ipfs-shell" ;;
  match err with
  | Some e => ret ("", Errorf "failed to get temp dir: " e)
  | None =>
      '(cfg, err) <- config_Init 2048 ;;
      match err with
      | Some e => ret ("", Some e)
      | None =>
          cfg <- (if flagExp E
                  then c <- deref cfg ;; ret (Some (enable_experiments c))
                  else ret cfg) ;;
          err <- fsrepo_Init repoPath cfg ;;
          match err with
          | Some e => ret ("", Errorf "failed to init ephemeral node: " e)
          | None => ret (repoPath, None)
          end
      end
  end.

(** Lines 89-106. *)
Definition CreateNode (ctx : Context) (repoPath : string)
  : M (option IpfsNode * error) :=
  '(repo, err) <- fsrepo_Open repoPath ;;
  match err with
  | Some e => ret (None, Some e)
  | None =>
      let nodeOptions :=
        {| Online := true; Routing := DHTOption; BuildRepo := repo |} in
      core_NewNode ctx nodeOptions
  end.

(** Lines 108-120. *)
Definition GetUnixfsNode (path : string) : M (option Node * error) :=
  '(st, err) <- os_Stat path ;;
  match err with
  | Some e => ret (None, Some e)
  | None =>
      '(f, err) <- files_NewSerialFile path false st ;;
      match err with
      | Some e => ret (None, Some e)
      | None => ret (f, None)
      end
  end.

(** Lines 122-128: the loop has no exit. *)
Definition ForeverSpin : M unit := fun s => Blocked s.

(** Lines 147-173. *)
Definition SpawnEphemeral (ctx : Context)
  : M (option CoreAPI * option IpfsNode * error) :=
  let onceErr : error := None in
  ran <- sync_Once_Do (SetupPlugins "") ;;
  let onceErr := match ran with Some e => e | None => onceErr end in
  match onceErr with
  | Some e => ret (None, None, Some e)
  | None =>
      '(repoPath, err) <- CreateTempRepo ;;
      match err with
      | Some e => ret (None, None, Errorf "failed to create temp repo: " e)
      | None =>
          '(node, err) <- CreateNode ctx repoPath ;;
          match err with
          | Some e => ret (None, None, Some e)
          | None =>
              '(api, err) <- coreapi_NewCoreAPI node ;;
              ret (api, node, err)
          end
      end
  end.

(** Lines 130-145. *)
Definition StartIpfsNode : M (Context * option CoreAPI * M unit * error) :=
  fmt_Println "-- Getting an IPFS node running -- " ;;
  let '(ctx, cancel) := context_WithCancel context_Background in
  fmt_Println "Spawning Kubo node on a temporary repo" ;;
  '(ipfsB, _, err) <- SpawnEphemeral ctx ;;
  match err with
  | Some e => panic ("failed to spawn ephemeral node: " ++ e)
  | None =>
      fmt_Println "IPFS node is running" ;;
      ret (ctx, ipfsB, cancel, err)
  end.

(** The loop [for de := range c] of lines 211-215 and 272-276. *)
Fixpoint print_names (c : list string) (fileCounter : nat) : M nat :=
  match c with
  | [] => ret fileCounter
  | name :: rest =>
      let fileCounter := S fileCounter in
      fmt_Print (itoa fileCounter ++ " file name: " ++ name ++ nl) ;;
      print_names rest fileCounter
  end.

Definition added_message (cidText : string) : string :=
  "Added file to IPFS. Now share this CID with your friend:" ++ nl
  ++ cidText ++ nl.

(** Lines 175-235. *)
Definition UploadFiles (flagFilePath : string) : M (string * error) :=
  enter (OpUpload flagFilePath) ;;
  '(ctx, ipfsA, cancel, err) <- StartIpfsNode ;;
  match err with
  | Some e => panic ("error: " ++ e)
  | None =>
  '(someFile, err) <- GetUnixfsNode flagFilePath ;;
  match err with
  | Some e => panic ("error: " ++ e)
  | None =>
  '(fileInfo, err) <- os_Stat flagFilePath ;;
  match err with
  | Some e => panic ("error: " ++ e)
  | None =>
  isDir <- FileInfo_IsDir fileInfo ;;
  someFile <-
    (if negb isDir
     then f <- deref someFile ;;
          ret (Some (files_NewSliceDirectory
                       [(Filepath.Base flagFilePath, f)]))
     else ret someFile) ;;
  '(cidFile, err) <- unixfs_Add ipfsA ctx someFile ;;
  match err with
  | Some e => panic ("error: " ++ e)
  | None =>
  fmt_Print (added_message (ImmutablePath_String cidFile)) ;;
  '(c, err) <- unixfs_Ls ipfsA ctx cidFile ;;
  match err with
  | Some e => panic ("could not find Ls from Cid: " ++ e)
  | None =>
  _ <- print_names c 0 ;;
  '(fileSize, err) <- Node_Size someFile ;;
  match err with
  | Some e => panic ("error: " ++ e)
  | None =>
  fmt_Print ("Seeding size: " ++ humanize_Bytes L (uint64 fileSize) ++ nl) ;;
  go_ ForeverSpin ;;
  signal_Notify [SIGINT; SIGTERM] ;;
  _ <- recv_signal ;;
  fmt_Println (nl ++ "Adios!") ;;
  Context_Done ctx ;;
  defer_ cancel (ret (ImmutablePath_String cidFile, err))
  end end end end end end.

(** Lines 244-298. *)
Definition DownloadFromCid (cidStr : string) : M (string * error * Z) :=
  enter (OpDownload cidStr) ;;
  '(ctx, ipfsA, cancel, err) <- StartIpfsNode ;;
  match err with
  | Some e => panic ("error: " ++ e)
  | None =>
  defer_ cancel (
  cidStr <- match GetCidStrFromString cidStr with
            | Some r => ret r
            | None => panic "runtime error: slice bounds out of range"
            end ;;
  let '(cidFromString, err) := cid_Parse cidStr in
  match err with
  | Some e => panic ("error: " ++ e)
  | None =>
  fmt_Print ("Fetching a file from the network with CID " ++ cidStr ++ nl) ;;
  let testCID := path_FromCid cidFromString in
  '(rootNode, err) <- unixfs_Get ipfsA ctx testCID ;;
  match err with
  | Some e => panic ("error: " ++ e)
  | None =>
  Context_Done ctx ;;
  '(c, err) <- unixfs_Ls ipfsA ctx testCID ;;
  match err with
  | Some e => panic ("could not find Ls info from Cid: " ++ e)
  | None =>
  _ <- print_names c 0 ;;
  let shouldWorkButNot := false in
  let outputPath :=
    if shouldWorkButNot : bool then "." else "./Download/" ++ cidStr in
  err <- os_MkdirAll "Download" 511 ;;
  match err with
  | Some e => panic ("error: " ++ e)
  | None =>
  err <- files_WriteTo rootNode (Filepath.Clean outputPath) ;;
  match err with
  | Some e => panic ("error: " ++ e)
  | None =>
  fmt_Print ("Wrote the files to " ++ outputPath ++ nl) ;;
  ret (outputPath, err, 100%Z)
  end end end end end)
  end.

Definition dq : string := String (Ascii.ascii_of_nat 34) EmptyString.

Definition usage : string :=
  "Use flags -f " ++ dq ++ "example.jpg" ++ dq ++ " or -c " ++ dq
  ++ "exampleCid" ++ dq ++ " to share files for example:" ++ nl
  ++ "./fsg -f " ++ dq ++ "example.jpg" ++ dq ++ nl
  ++ "or to download files" ++ nl
  ++ "./fsg -c " ++ dq ++ "exampleCid" ++ dq.

(** Lines 300-319, after [flag.Parse] has filled the two flags. *)
Definition main (flagFilePath flagCid : string) : M unit :=
  if (negb (String.eqb flagCid "") || negb (String.eqb flagFilePath ""))%bool
  then
    if negb (String.eqb flagCid "")
    then _ <- DownloadFromCid flagCid ;; ret tt
    else if negb (String.eqb flagFilePath "")
         then _ <- UploadFiles flagFilePath ;; ret tt
         else ret tt
  else fmt_Println usage.

End Program.

(* ------------------------------------------------------------------ *)
(** ** A small instance, to run the model

    The CID of a tree is the text of the tree, its string form is the
    base16 text of that with the multibase prefix [f]. *)

Module Example.

Definition hex_digit (n : nat) : ascii :=
  nth n (list_ascii_of_string "0123456789abcdef") "0"%char.

Fixpoint hex (s : string) : string :=
  match s with
  | EmptyString => EmptyString
  | String c s' =>
      let n := Ascii.nat_of_ascii c in
      String (hex_digit (n / 16)) (String (hex_digit (n mod 16)) (hex s'))
  end.

Definition unhex_digit (c : ascii) : option nat :=
  let n := Ascii.nat_of_ascii c in
  if ((48 <=? n) && (n <=? 57))%nat then Some (n - 48)
  else if ((97 <=? n) && (n <=? 102))%nat then Some (n - 87)
  else None.

Fixpoint unhex (s : string) : option string :=
  match s with
  | EmptyString => Some EmptyString
  | String a (String b s') =>
      match unhex_digit a, unhex_digit b, unhex s' with
      | Some x, Some y, Some r =>
          Some (String (Ascii.ascii_of_nat (16 * x + y)) r)
      | _, _, _ => None
      end
  | String _ EmptyString => None
  end.

Fixpoint show (n : Node) : string :=
  match n with
  | File d => "F(" ++ string_of_list_byte d ++ ")"
  | Dir es =>
      "D[" ++
      (fix go (es : list (string * Node)) : string :=
         match es with
         | [] => ""
         | (name, ch) :: rest => name ++ "=" ++ show ch ++ ";" ++ go rest
         end) es ++ "]"
  end.

Definition lib : Lib :=
  {| dag_cid := show;
     cid_String := fun c => "f" ++ hex c;
     cid_Decode := fun s =>
       match s with
       | String "f" r => unhex r
       | _ => None
       end;
     file_links := fun _ => 0;
     humanize_Bytes := fun z => itoa (Z.to_nat z) ++ " B" |}.

Definition bytes (s : string) : list Byte.byte := list_byte_of_string s.

(** [/home/u] holds a file, a directory with a hidden entry, and nothing
    called [Download]. *)
Definition home : Node :=
  Dir [("a.txt", File (bytes "hello"));
       ("docs", Dir [("b.txt", File (bytes "bee"));
                     (".secret", File (bytes "key"))])].

Definition root : Node :=
  Dir [("home", Dir [("u", home)]); ("tmp", Dir [])].

Definition no_faults : LibCall -> error := fun _ => None.

Definition env (peers : list Node) : Env :=
  {| cwd := "/home/u";
     rand := itoa;
     faults := no_faults;
     flagExp := false;
     remote_dags := peers |}.

(** Another node: other random names and keys, other peers. *)
Definition env2 : Env :=
  {| cwd := "/home/u";
     rand := fun n => "x" ++ itoa (n + 7);
     faults := no_faults;
     flagExp := true;
     remote_dags := [File (bytes "other")] |}.

(** An environment in which the plugin loader fails. *)
Definition env_no_plugins : Env :=
  {| cwd := "/home/u";
     rand := itoa;
     faults := fun c =>
       match c with
       | NewPluginLoader => Some "plugin directory unreadable"
       | _ => None
       end;
     flagExp := false;
     remote_dags := [] |}.

(** A process that has just started. *)
Definition start (fs : Node) (sigs : list Signal) : State :=
  {| fs_root := fs; rand_pos := 0; repos := []; running := [];
     local_dags := []; loadPluginsOnce := false; setup_runs := 0; spinners := 0;
     stdout := []; calls := []; signals := sigs; notify := [] |}.

(** The node [UploadFiles] adds for [a.txt], and the text of its CID. *)
Definition wrapped : Node := Dir [("a.txt", File (bytes "hello"))].

Definition wrapped_cid : string :=
  Eval vm_compute in cid_String lib (dag_cid lib wrapped).


(** The publisher of [a.txt], waiting for its signal. *)
Definition publisher : State :=
  final_state (UploadFiles lib (env []) "a.txt" (start root [])).

(** The publisher of [docs], and the CID text it printed. *)
Definition docs_publisher : State :=
  final_state (UploadFiles lib (env []) "docs" (start root [])).

Definition docs_cid : string :=
  Eval vm_compute in
    cid_String lib (dag_cid lib (Dir [("b.txt", File (bytes "bee"))])).

(** A fetch of that CID from a peer that provides it. *)
Definition fetched : State :=
  final_state (DownloadFromCid lib (env [wrapped]) ("/ipfs/" ++ wrapped_cid)
                               (start root [])).

End Example.

(* ------------------------------------------------------------------ *)
(** ** Vocabulary of the statements *)

Definition start_lines : list string :=
  ["-- Getting an IPFS node running -- " ++ nl;
   "Spawning Kubo node on a temporary repo" ++ nl;
   "IPFS node is running" ++ nl].

(** What starting a node leaves alone. *)
Definition same_world (s s' : State) : Prop :=
  fs_root s' = fs_root s /\ local_dags s' = local_dags s /\
  calls s' = calls s /\ signals s' = signals s /\ notify s' = notify s /\
  spinners s' = spinners s.

(** No call of the start-up sequence is made to fail.  The plugin calls
    run only when the plugins were not set up before. *)
Definition startup_clean (E : Env) (s : State) : Prop :=
  (loadPluginsOnce s = false ->
   faults E NewPluginLoader = None /\ faults E PluginsInitialize = None /\
   faults E PluginsInject = None) /\
  faults E OsMkdirTemp = None /\ faults E ConfigInit = None /\
  faults E FsrepoInit = None /\ faults E FsrepoOpen = None /\
  faults E CoreNewNode = None /\ faults E NewCoreAPI = None.

Definition start_post (E : Env) (s : State)
           (o : Outcome (Context * option CoreAPI * M unit * error)) : Prop :=
  match o with
  | Ret (ctx, api, cancel, err) s' =>
      ctx = context_Background /\ (exists a, api = Some a) /\
      cancel = cancel_nodes /\ err = None /\ startup_clean E s /\
      same_world s s' /\ stdout s' = (stdout s ++ start_lines)%list /\
      running s' <> []
  | Panic e s' =>
      ~ startup_clean E s /\
      same_world s s' /\ stdout s' = (stdout s ++ firstn 2 start_lines)%list
  | Blocked _ | Killed _ _ => False
  end.

(** The node [UploadFiles] hands to [Add] for the tree [n] found at
    [flagFilePath]. *)
Definition upload_node (flagFilePath : string) (n : Node) : Node :=
  if IsDir n then serial_tree false n
  else Dir [(Filepath.Base flagFilePath, serial_tree false n)].

(** The text [UploadFiles] prints and returns for the node it added. *)
Definition cid_text (L : Lib) (nd : Node) : string :=
  "/ipfs/" ++ cid_String L (dag_cid L nd).

Fixpoint names_lines (c : list string) (fileCounter : nat) : list string :=
  match c with
  | [] => []
  | name :: rest =>
      (itoa (S fileCounter) ++ " file name: " ++ name ++ nl)
        :: names_lines rest (S fileCounter)
  end.

(** What [UploadFiles] prints from the CID on, up to its wait. *)
Definition size_line (L : Lib) (nd : Node) : string :=
  "Seeding size: " ++ humanize_Bytes L (uint64 (tree_size nd)) ++ nl.

Definition seeding_lines (L : Lib) (nd : Node) : list string :=
  (added_message (cid_text L nd)
     :: names_lines (ls_names L nd) 0 ++ [size_line L nd])%list.

Definition adios : string := (nl ++ "Adios!") ++ nl.

(** Nothing makes [UploadFiles] fail before its wait. *)
Definition upload_clean (E : Env) (flagFilePath : string) (s : State) : Prop :=
  startup_clean E s /\
  faults E OsStat = None /\ faults E NewSerialFile = None /\
  faults E UnixfsAdd = None /\ faults E UnixfsLs = None /\
  faults E NodeSize = None /\
  flagFilePath <> "" /\
  fs_lookup (fs_root s) (resolve E flagFilePath) <> None.

Definition published (L : Lib) (p : string) (n : Node) (s s' : State)
           (extra : list string) (dags : list Node) : Prop :=
  calls s' = (calls s ++ [OpUpload p])%list /\
  fs_root s' = fs_root s /\
  stdout s' = (stdout s ++ start_lines
                 ++ seeding_lines L (upload_node p n) ++ extra)%list /\
  notify s' = [SIGINT; SIGTERM] /\
  local_dags s' = dags.

(** The ways [UploadFiles] ends. *)
Inductive upload_result (L : Lib) (E : Env) (p : string) (s : State)
  : Outcome (string * error) -> Prop :=
| up_panic e s' :
    ~ upload_clean E p s ->
    calls s' = (calls s ++ [OpUpload p])%list ->
    fs_root s' = fs_root s ->
    ((exists k, stdout s' = (stdout s ++ firstn k start_lines)%list) \/
     (exists n rest,
         fs_lookup (fs_root s) (resolve E p) = Some n /\
         stdout s' = (stdout s ++ start_lines
                        ++ added_message (cid_text L (upload_node p n))
                        :: rest)%list)) ->
    upload_result L E p s (Panic e s')
| up_waiting n s' :
    upload_clean E p s ->
    fs_lookup (fs_root s) (resolve E p) = Some n ->
    signals s = [] ->
    published L p n s s' [] (upload_node p n :: local_dags s) ->
    signals s' = [] -> running s' <> [] ->
    upload_result L E p s (Blocked s')
| up_killed n g rest s' :
    upload_clean E p s ->
    fs_lookup (fs_root s) (resolve E p) = Some n ->
    signals s = g :: rest ->
    g <> SIGINT -> g <> SIGTERM ->
    published L p n s s' [] (upload_node p n :: local_dags s) ->
    signals s' = rest ->
    upload_result L E p s (Killed g s')
| up_returned n g rest s' :
    upload_clean E p s ->
    fs_lookup (fs_root s) (resolve E p) = Some n ->
    signals s = g :: rest ->
    g = SIGINT \/ g = SIGTERM ->
    published L p n s s' [adios] [] ->
    signals s' = rest -> running s' = [] ->
    upload_result L E p s (Ret (cid_text L (upload_node p n), None) s').

Definition fetching_line (c : string) : string :=
  "Fetching a file from the network with CID " ++ c ++ nl.

Definition wrote_line (c : string) : string :=
  "Wrote the files to " ++ ("./Download/" ++ c) ++ nl.

(** The start-up is clean and the argument of [DownloadFromCid] strips to
    [c], which parses as [cid]; [Get] is not made to fail. *)
Definition fetch_ready (L : Lib) (E : Env) (cidStr : string) (s : State)
           (c : string) (cid : Cid) : Prop :=
  startup_clean E s /\
  GetCidStrFromString cidStr = Some c /\
  cid_Decode L c = Some cid /\
  faults E UnixfsGet = None.

(** Nobody provides the CID. *)
Definition fetch_hangs (L : Lib) (E : Env) (cidStr : string) (s : State)
  : Prop :=
  exists c cid,
    fetch_ready L E cidStr s c cid /\
    find_dag L cid (local_dags s ++ remote_dags E) = None.

(** The DAG [nd] of the CID is found and written: [r1] is the tree after
    [MkdirAll], [r2] the tree after [WriteTo]. *)
Definition fetch_writes (L : Lib) (E : Env) (cidStr : string) (s : State)
           (c : string) (nd r1 r2 : Node) : Prop :=
  (exists cid,
      fetch_ready L E cidStr s c cid /\
      find_dag L cid (local_dags s ++ remote_dags E) = Some nd) /\
  faults E UnixfsLs = None /\ faults E OsMkdirAll = None /\
  faults E FilesWriteTo = None /\
  fs_mkdir_all (resolve E "Download") (fs_root s) = Some r1 /\
  fs_lookup r1 (resolve E (Filepath.Clean ("./Download/" ++ c))) = None /\
  writable nd = true /\
  fs_create (resolve E (Filepath.Clean ("./Download/" ++ c))) nd r1 = Some r2.

(** The ways [DownloadFromCid] ends. *)
Inductive download_result (L : Lib) (E : Env) (cidStr : string) (s : State)
  : Outcome (string * error * Z) -> Prop :=
| dl_panic e s' :
    ~ fetch_hangs L E cidStr s ->
    (forall c nd r1 r2, ~ fetch_writes L E cidStr s c nd r1 r2) ->
    calls s' = (calls s ++ [OpDownload cidStr])%list ->
    download_result L E cidStr s (Panic e s')
| dl_waiting s' :
    fetch_hangs L E cidStr s ->
    calls s' = (calls s ++ [OpDownload cidStr])%list ->
    fs_root s' = fs_root s ->
    download_result L E cidStr s (Blocked s')
| dl_done c nd r1 r2 s' :
    fetch_writes L E cidStr s c nd r1 r2 ->
    calls s' = (calls s ++ [OpDownload cidStr])%list ->
    fs_root s' = r2 ->
    stdout s' = (stdout s ++ start_lines ++ fetching_line c
                   :: names_lines (ls_names L nd) 0 ++ [wrote_line c])%list ->
    local_dags s' = [] -> running s' = [] ->
    download_result L E cidStr s (Ret ("./Download/" ++ c, None, 100%Z) s').

(** The elements of the working directory, innermost first: every
    relative path of the program resolves below them. *)
Definition cwd_stack (E : Env) : list string :=
  fold_left (Filepath.clean_step (Filepath.IsAbs (cwd E ++ "/")))
            (Filepath.split (cwd E)) [].

(** A name that names an entry: not empty, not [.] or [..], no separator. *)
Definition proper_name (c : string) : Prop :=
  c <> "" /\ c <> "." /\ c <> ".." /\ no_slash c = true.


(** The state after [n] invocations of [SpawnEphemeral] in a row, and the
    errors they returned. *)
Fixpoint spawn_many (E : Env) (ctx : Context) (n : nat) (s : State) : State :=
  match n with
  | O => s
  | S n' => spawn_many E ctx n' (final_state (SpawnEphemeral E ctx s))
  end.

Fixpoint spawn_errors (E : Env) (ctx : Context) (n : nat) (s : State)
  : list error :=
  match n with
  | O => []
  | S n' =>
      match SpawnEphemeral E ctx s with
      | Ret (_, _, err) s' => err :: spawn_errors E ctx n' s'
      | _ => []
      end
  end.

(** The two loops over the entries of a directory, by name. *)
Definition writable_entries : list (string * Node) -> list string -> bool :=
  fix go (es : list (string * Node)) (seen : list string) : bool :=
    match es with
    | [] => true
    | (name, ch) :: rest =>
        valid_entry_name name && negb (mem_string name seen) &&
        writable ch && go rest (name :: seen)
    end.

Definition no_hidden_entries : list (string * Node) -> bool :=
  fix go (es : list (string * Node)) : bool :=
    match es with
    | [] => true
    | (name, ch) :: rest => negb (isHidden name) && no_hidden ch && go rest
    end.

Definition serial_entries (includeHidden : bool)
  : list (string * Node) -> list (string * Node) :=
  fix go (es : list (string * Node)) : list (string * Node) :=
    match es with
    | [] => []
    | (name, ch) :: rest =>
        if (includeHidden || negb (isHidden name))%bool
        then (name, serial_tree includeHidden ch) :: go rest
        else go rest
    end.

(** [SpawnEphemeral] always returns; the [sync.Once] is done afterwards
    and the set-up has run if and only if it was not done before. *)
Definition spawn_post (E : Env) (s : State)
           (o : Outcome (option CoreAPI * option IpfsNode * error)) : Prop :=
  match o with
  | Ret _ s' =>
      loadPluginsOnce s' = true /\
      setup_runs s' = (if loadPluginsOnce s then setup_runs s
                       else S (setup_runs s))
  | _ => False
  end.

(* ------------------------------------------------------------------ *)
(** ** Vocabulary of the further properties *)

(** The four experimental features of lines 66-77, all set to [b]. *)
Definition experiments_all (b : bool) (x : Experiments) : Prop :=
  FilestoreEnabled x = b /\ UrlstoreEnabled x = b /\
  Libp2pStreamMounting x = b /\ P2pHttpProxy x = b.

(** The calls [StartIpfsNode] makes through [SpawnEphemeral], in the order
    of the program; the first three are made only while the [sync.Once] is
    not done. *)
Definition start_calls : list LibCall :=
  [NewPluginLoader; PluginsInitialize; PluginsInject;
   OsMkdirTemp; ConfigInit; FsrepoInit; FsrepoOpen; CoreNewNode; NewCoreAPI].

Definition calls_of_start (s : State) : list LibCall :=
  if loadPluginsOnce s then skipn 3 start_calls else start_calls.

(** The first call of [cs] that the environment makes fail, with its
    error. *)
Fixpoint first_fault (E : Env) (cs : list LibCall)
  : option (LibCall * string) :=
  match cs with
  | [] => None
  | c :: rest =>
      match faults E c with
      | Some e => Some (c, e)
      | None => first_fault E rest
      end
  end.

(** What the start-up sequence puts before the error of a call. *)
Definition spawn_wrap (c : LibCall) : string :=
  match c with
  | NewPluginLoader => "error loading plugins: "
  | PluginsInitialize | PluginsInject => "error initializing plugins: "
  | OsMkdirTemp => "failed to create temp repo: failed to get temp dir: "
  | ConfigInit => "failed to create temp repo: "
  | FsrepoInit => "failed to create temp repo: failed to init ephemeral node: "
  | _ => ""
  end.

(** The two ways [StartIpfsNode] ends. *)
Definition start_outcome (E : Env) (s : State)
  (o : Outcome (Context * option CoreAPI * M unit * error)) : Prop :=
  match first_fault E (calls_of_start s) with
  | Some (c, e) =>
      exists s',
        o = Panic ("failed to spawn ephemeral node: " ++ spawn_wrap c ++ e) s' /\
        same_world s s' /\
        stdout s' = (stdout s ++ firstn 2 start_lines)%list
  | None =>
      exists api s',
        o = Ret (context_Background, Some api, cancel_nodes, None) s' /\
        same_world s s' /\
        stdout s' = (stdout s ++ start_lines)%list /\
        running s' <> []
  end.

(** What [UploadFiles] and [DownloadFromCid] put before the error of a
    call. *)
Definition upload_wrap (c : LibCall) : string :=
  match c with
  | UnixfsLs => "could not find Ls from Cid: "
  | _ => "error: "
  end.

Definition download_wrap (c : LibCall) : string :=
  match c with
  | UnixfsLs => "could not find Ls info from Cid: "
  | _ => "error: "
  end.

(** The line the listing loop prints for the [k]-th name. *)
Definition name_line (k : nat) (name : string) : string :=
  itoa k ++ " file name: " ++ name ++ nl.

(** The names of the entries of a directory that are not hidden, in the
    order of the listing. *)
Definition visible_names (es : list (string * Node)) : list string :=
  map fst (filter (fun e => negb (isHidden (fst e))) es).

(** The trees a run of [DownloadFromCid] can leave behind when it starts
    with the tree [r]: [r] itself, [r] with the directory [Download] made,
    or that with one new node created at a free path. *)
Definition download_tree (E : Env) (r r' : Node) : Prop :=
  r' = r \/
  fs_mkdir_all (resolve E "Download") r = Some r' \/
  exists r1 q nd,
    fs_mkdir_all (resolve E "Download") r = Some r1 /\
    fs_lookup r1 q = None /\
    fs_create q nd r1 = Some r'.

(* ================================================================== *)
(** * Properties *)

(* ------------------------------------------------------------------ *)
(** ** The functions on small inputs *)

Example LastIndex_examples :
  GoStrings.LastIndex "/ipfs/Qm" "/" = 5%Z /\
  GoStrings.LastIndex "Qm" "/" = (-1)%Z /\
  GoStrings.LastIndex "" "/" = (-1)%Z /\
  GoStrings.LastIndex "abcabc" "bc" = 4%Z.
Proof. repeat split. Qed.

Example Trim_examples :
  GoStrings.Trim ("  Qm " ++ nl) cid_cutset = "Qm" /\
  GoStrings.Trim "Q m" cid_cutset = "Q m" /\
  GoStrings.Trim "   " cid_cutset = "" /\
  GoStrings.Trim "" cid_cutset = "".
Proof. repeat split. Qed.

Example GetCidStrFromString_examples :
  GetCidStrFromString "/ipfs/QmAbc" = Some "QmAbc" /\
  GetCidStrFromString ("QmAbc" ++ nl) = Some "QmAbc" /\
  GetCidStrFromString " /ipfs/QmAbc  " = Some "QmAbc" /\
  GetCidStrFromString "/ipfs/QmAbc/" = Some "" /\
  GetCidStrFromString "" = Some "".
Proof. repeat split. Qed.

Example Clean_examples :
  Filepath.Clean "./Download/Qm" = "Download/Qm" /\
  Filepath.Clean "a//b/./c/.." = "a/b" /\
  Filepath.Clean "/../a" = "/a" /\
  Filepath.Clean "../a/.." = ".." /\
  Filepath.Clean "" = "." /\
  Filepath.Clean "./Download/.." = ".".
Proof. repeat split. Qed.

Example Base_examples :
  Filepath.Base "example.jpg" = "example.jpg" /\
  Filepath.Base "/home/u/a.txt" = "a.txt" /\
  Filepath.Base "docs/" = "docs" /\
  Filepath.Base "/" = "/" /\
  Filepath.Base "" = ".".
Proof. repeat split. Qed.

(** A publish of [a.txt] waits; with a SIGINT it returns the CID text; a
    SIGHUP ends the process. *)
Example UploadFiles_runs :
  process_end (UploadFiles Example.lib (Example.env []) "a.txt"
                           (Example.start Example.root []))
  = StillRunning /\
  (exists s',
      UploadFiles Example.lib (Example.env []) "a.txt"
                  (Example.start Example.root [SIGINT])
      = Ret ("/ipfs/" ++ Example.wrapped_cid, None) s') /\
  process_end (UploadFiles Example.lib (Example.env []) "a.txt"
                           (Example.start Example.root [SIGHUP]))
  = Signaled SIGHUP /\
  process_end (UploadFiles Example.lib (Example.env []) "missing.txt"
                           (Example.start Example.root [SIGINT]))
  = Exited 2.
Proof. vm_compute. repeat split. eexists. reflexivity. Qed.

(* ------------------------------------------------------------------ *)
(** ** Lemmas on Go strings *)

Lemma prefix_slash (s : string) :
  GoStrings.HasPrefix s "/" = true <-> exists r, s = String "/" r.
Proof.
  destruct s as [|c r]; cbn [GoStrings.HasPrefix].
  - split; [discriminate | intros [r H]; discriminate].
  - rewrite andb_true_r. split.
    + intros H; apply Ascii.eqb_eq in H; subst; eauto.
    + intros [r' H]; injection H as -> _; reflexivity.
Qed.

Lemma len_nonneg (s : string) : (0 <= GoStrings.len s)%Z.
Proof. unfold GoStrings.len; lia. Qed.

Lemma len_String (c : ascii) (s : string) :
  GoStrings.len (String c s) = (GoStrings.len s + 1)%Z.
Proof. unfold GoStrings.len; simpl; lia. Qed.

Lemma length_app (a b : string) :
  String.length (a ++ b) = (String.length a + String.length b)%nat.
Proof. induction a as [|c a IH]; simpl; [reflexivity | now rewrite IH]. Qed.

Lemma len_app (a b : string) :
  GoStrings.len (a ++ b) = (GoStrings.len a + GoStrings.len b)%Z.
Proof. unfold GoStrings.len; rewrite length_app; lia. Qed.

Lemma drop_app (a b : string) :
  GoStrings.drop (String.length a) (a ++ b) = b.
Proof. induction a as [|c a IH]; simpl; [now destruct b | exact IH]. Qed.

(** The scan either keeps the accumulator (no slash seen) or stops at the
    position of the last slash. *)
Lemma last_index_from_slash (s : string) :
  forall i acc,
    (GoStrings.last_index_from s "/" i acc = acc /\ no_slash s = true) \/
    (exists pre suf,
        s = pre ++ String "/" suf /\ no_slash suf = true /\
        GoStrings.last_index_from s "/" i acc = (i + GoStrings.len pre)%Z).
Proof.
  induction s as [|c s IH]; intros i acc.
  - left; simpl; auto.
  - cbn [GoStrings.last_index_from].
    destruct (Ascii.ascii_dec c "/") as [->|Hne].
    + replace (GoStrings.HasPrefix (String "/" s) "/") with true
        by (symmetry; apply prefix_slash; eauto).
      destruct (IH (i + 1)%Z i) as [[Hr Hn]|(pre & suf & Hs & Hn & Hr)].
      * right; exists EmptyString, s; simpl; repeat split; auto.
        rewrite Hr; unfold GoStrings.len; simpl; lia.
      * right; exists (String "/" pre), suf; simpl; repeat split; auto.
        -- now rewrite Hs.
        -- rewrite Hr, len_String; lia.
    + assert (Hp : GoStrings.HasPrefix (String c s) "/" = false).
      { destruct (GoStrings.HasPrefix (String c s) "/") eqn:E; auto.
        apply prefix_slash in E; destruct E as [r E]; congruence. }
      rewrite Hp.
      assert (Hc : Ascii.eqb c "/" = false) by now apply Ascii.eqb_neq.
      destruct (IH (i + 1)%Z acc) as [[Hr Hn]|(pre & suf & Hs & Hn & Hr)].
      * left; simpl; rewrite Hc; auto.
      * right; exists (String c pre), suf; simpl; repeat split; auto.
        -- now rewrite Hs.
        -- rewrite Hr, len_String; lia.
Qed.

Lemma LastIndex_slash (s : string) :
  (GoStrings.LastIndex s "/" = (-1)%Z /\ no_slash s = true) \/
  (exists pre suf,
      s = pre ++ String "/" suf /\ no_slash suf = true /\
      GoStrings.LastIndex s "/" = GoStrings.len pre).
Proof.
  unfold GoStrings.LastIndex.
  destruct (last_index_from_slash s 0 (-1)) as [H|(pre & suf & Hs & Hn & Hr)];
    [left; exact H | right; exists pre, suf; repeat split; auto].
Qed.

Lemma slice_after_slash (pre suf : string) :
  GoStrings.slice_from (pre ++ String "/" suf) (GoStrings.len pre + 1)
  = Some suf.
Proof.
  unfold GoStrings.slice_from.
  pose proof (len_nonneg pre) as Hp. pose proof (len_nonneg suf) as Hs.
  rewrite len_app, len_String.
  replace ((GoStrings.len pre + 1 <? 0)%Z) with false by (symmetry; lia).
  replace ((GoStrings.len pre + (GoStrings.len suf + 1)
            <? GoStrings.len pre + 1)%Z) with false by (symmetry; lia).
  simpl. f_equal.
  replace (Z.to_nat (GoStrings.len pre + 1)) with (String.length (pre ++ "/")).
  - replace (pre ++ String "/" suf) with ((pre ++ "/") ++ suf).
    + apply drop_app.
    + clear; induction pre; simpl; congruence.
  - unfold GoStrings.len. rewrite length_app; simpl; lia.
Qed.

Lemma slice_from_0 (s : string) : GoStrings.slice_from s 0 = Some s.
Proof.
  unfold GoStrings.slice_from. pose proof (len_nonneg s).
  replace ((GoStrings.len s <? 0)%Z) with false by (symmetry; lia).
  reflexivity.
Qed.

Lemma sapp_assoc (a b c : string) : (a ++ b) ++ c = a ++ (b ++ c).
Proof. induction a as [|x a IH]; simpl; [reflexivity | now rewrite IH]. Qed.

Lemma sapp_nil_r (a : string) : a ++ "" = a.
Proof. induction a as [|x a IH]; simpl; [reflexivity | now rewrite IH]. Qed.

Lemma no_slash_app (a b : string) :
  no_slash (a ++ b) = no_slash a && no_slash b.
Proof.
  induction a as [|x a IH]; simpl; [reflexivity | now rewrite IH, andb_assoc].
Qed.

Lemma ends_clean_nil (cut : string) : ends_clean cut "".
Proof. intros p c H; destruct p; discriminate. Qed.

Lemma starts_clean_nil (cut : string) : starts_clean cut "".
Proof. intros c r H; discriminate. Qed.

Lemma trimRight_spec (cut s : string) :
  exists t, s = GoStrings.trimRight cut s ++ t /\ all_in cut t = true /\
            ends_clean cut (GoStrings.trimRight cut s).
Proof.
  induction s as [|c s (t & Hs & Ht & Hc)]; simpl.
  - exists ""; repeat split; auto using ends_clean_nil.
  - destruct (GoStrings.trimRight cut s) as [|a r] eqn:E.
    + simpl in Hs; subst t.
      destruct (GoStrings.in_cutset cut c) eqn:Ec.
      * exists (String c s); simpl; rewrite Ec; repeat split;
          auto using ends_clean_nil.
      * exists s; repeat split; auto.
        intros p c' H. destruct p as [|x [|y p]]; simpl in H; try discriminate.
        now injection H as <-.
    + exists t; repeat split; auto.
      * simpl; now rewrite Hs at 1.
      * intros p c' H. destruct p as [|x p]; simpl in H; [discriminate|].
        injection H as _ H. exact (Hc p c' H).
Qed.

Lemma trimLeft_spec (cut s : string) :
  exists l, s = l ++ GoStrings.trimLeft cut s /\ all_in cut l = true /\
            starts_clean cut (GoStrings.trimLeft cut s).
Proof.
  induction s as [|c s (l & Hs & Hl & Hc)]; simpl.
  - exists ""; repeat split; auto using starts_clean_nil.
  - destruct (GoStrings.in_cutset cut c) eqn:Ec.
    + exists (String c l); simpl; rewrite Ec; repeat split; auto.
      now rewrite Hs at 1.
    + exists ""; repeat split; auto.
      intros c' r H; now injection H as <- _.
Qed.

Lemma trimLeft_id (cut s : string) :
  starts_clean cut s -> GoStrings.trimLeft cut s = s.
Proof.
  destruct s as [|c s]; simpl; intros H; [reflexivity|].
  now rewrite (H c s eq_refl).
Qed.

Lemma trimRight_id (cut s : string) :
  ends_clean cut s -> GoStrings.trimRight cut s = s.
Proof.
  induction s as [|c s IH]; simpl; intros H; [reflexivity|].
  rewrite IH.
  - destruct s; [|reflexivity]. now rewrite (H "" c eq_refl).
  - intros p c' E; apply (H (String c p) c'); simpl; now rewrite E.
Qed.

(** What [strings.Trim] returns: the input without a leading and a trailing
    run of cutset bytes. *)
Lemma Trim_spec (s cut : string) :
  cut <> "" ->
  exists l t, s = l ++ GoStrings.Trim s cut ++ t /\
              all_in cut l = true /\ all_in cut t = true /\
              starts_clean cut (GoStrings.Trim s cut) /\
              ends_clean cut (GoStrings.Trim s cut).
Proof.
  intros Hcut. unfold GoStrings.Trim.
  destruct (String.eqb_spec s "") as [->|Hs]; simpl.
  - exists "", ""; repeat split; auto using starts_clean_nil, ends_clean_nil.
  - destruct (String.eqb_spec cut "") as [->|_]; [congruence|].
    destruct (trimRight_spec cut s) as (t & Hst & Ht & He).
    destruct (trimLeft_spec cut (GoStrings.trimRight cut s)) as (l & Hl & Hal & Hsc).
    exists l, t; repeat split; auto.
    + rewrite <- sapp_assoc, <- Hl; exact Hst.
    + intros p c E. apply (He (l ++ p) c).
      rewrite Hl at 1. now rewrite E, sapp_assoc.
Qed.

Lemma Trim_id (s cut : string) :
  starts_clean cut s -> ends_clean cut s -> GoStrings.Trim s cut = s.
Proof.
  intros Hs He. unfold GoStrings.Trim.
  destruct (String.eqb s "" || String.eqb cut "")%bool; [reflexivity|].
  now rewrite (trimRight_id _ _ He), (trimLeft_id _ _ Hs).
Qed.

(** ** [GetCidStrFromString] *)

Lemma GetCidStrFromString_noslash (s : string) :
  no_slash s = true ->
  GetCidStrFromString s = Some (GoStrings.Trim s cid_cutset).
Proof.
  intros H. unfold GetCidStrFromString.
  destruct (LastIndex_slash s) as [[-> _]|(pre & suf & Hs & _ & _)].
  - simpl. now rewrite slice_from_0.
  - subst s. rewrite no_slash_app in H; simpl in H.
    now rewrite andb_false_r in H.
Qed.

Lemma GetCidStrFromString_slash (pre suf : string) :
  no_slash suf = true ->
  GetCidStrFromString (pre ++ String "/" suf)
  = Some (GoStrings.Trim suf cid_cutset).
Proof.
  intros H. unfold GetCidStrFromString.
  destruct (LastIndex_slash (pre ++ String "/" suf))
    as [[_ Hn]|(pre' & suf' & Hs & Hn & ->)].
  - rewrite no_slash_app in Hn; simpl in Hn. now rewrite andb_false_r in Hn.
  - rewrite Hs. rewrite slice_after_slash.
    f_equal. f_equal.
    (* both decompositions split at the last slash *)
    clear -Hs H Hn. revert pre' Hs.
    induction pre as [|c pre IH]; intros [|c' pre'] Hs; simpl in Hs.
    + now injection Hs.
    + injection Hs as <- Hs. subst suf.
      rewrite no_slash_app in H; simpl in H. now rewrite andb_false_r in H.
    + injection Hs as -> Hs. subst suf'.
      rewrite no_slash_app in Hn; simpl in Hn. now rewrite andb_false_r in Hn.
    + injection Hs as _ Hs. now apply IH in Hs.
Qed.

(* ------------------------------------------------------------------ *)
(** ** Running the model

    A run of the model is a nest of [match]es.  [stuck] finds what the
    outermost one waits for (a fault of the environment, a lookup, a
    signal), so that a proof can split on it, in the order of the program;
    [sim] unfolds the monad and the state updates. *)

Ltac head_of t :=
  lazymatch t with
  | match ?x with _ => _ end => head_of x
  | (match ?x with _ => _ end) _ => head_of x
  | (match ?x with _ => _ end) _ _ => head_of x
  | _ => t
  end.

Ltac stuck t :=
  lazymatch t with
  | match ?x with _ => _ end => head_of x
  | (match ?x with _ => _ end) _ => head_of x
  | (match ?x with _ => _ end) _ _ => head_of x
  end.

Ltac sim :=
  unfold bind, ret, panic, deref, defer_, fmt_Println, fmt_Print, Errorf in *;
  cbn [fst snd final_state process_end
       fs_root rand_pos repos running local_dags loadPluginsOnce setup_runs
       spinners stdout calls signals notify
       set_fs_root set_rand_pos set_repos set_running set_local_dags
       set_loadPluginsOnce set_setup_runs set_spinners set_stdout set_calls
       set_signals set_notify] in *.

Lemma find_repo_head (path : string) (c : Config) (rs : list Repo) :
  find (fun r => String.eqb (repo_path r) path)
       ({| repo_path := path; repo_config := c |} :: rs)
  = Some {| repo_path := path; repo_config := c |}.
Proof. simpl. now rewrite String.eqb_refl. Qed.

(** ** Starting the node *)

Lemma StartIpfsNode_post (E : Env) (s : State) :
  start_post E s (StartIpfsNode E s).
Proof.
  unfold StartIpfsNode, SpawnEphemeral, sync_Once_Do, SetupPlugins,
    CreateTempRepo, CreateNode, loader_NewPluginLoader,
    PluginLoader_Initialize, PluginLoader_Inject, os_MkdirTemp, config_Init,
    fsrepo_Init, fsrepo_Open, core_NewNode, coreapi_NewCoreAPI,
    context_WithCancel.
  sim.
  repeat (rewrite ?find_repo_head;
          match goal with
          | |- start_post _ _ ?t =>
              let h := stuck t in destruct h eqn:?; sim
          end).
  all: unfold start_post, same_world, startup_clean, start_lines; sim.
  all: rewrite <- ?app_assoc; cbn [firstn app].
  all: try (repeat split; eauto; intros; congruence).
  all: try (repeat split; eauto; intros (Hp & ?);
            try destruct Hp as (? & ? & ?); intuition congruence).
Qed.

Lemma set_stdout_same (s : State) : set_stdout (stdout s) s = s.
Proof. now destruct s. Qed.

Lemma print_names_eq (c : list string) :
  forall n s,
    print_names c n s
    = Ret (n + List.length c)%nat
          (set_stdout (stdout s ++ names_lines c n) s).
Proof.
  induction c as [|name c IH]; intros n s; cbn [print_names names_lines].
  - sim. now rewrite app_nil_r, set_stdout_same, Nat.add_0_r.
  - sim. rewrite IH. sim. rewrite <- app_assoc. cbn [List.length app].
    now rewrite Nat.add_succ_r.
Qed.


(** ** The ways [UploadFiles] ends *)

Lemma find_dag_head L nd l : find_dag L (dag_cid L nd) (nd :: l) = Some nd.
Proof. unfold find_dag; cbn [find]. now rewrite String.eqb_refl. Qed.

Lemma upload_node_file p n :
  negb (IsDir n) = true ->
  Dir [(Filepath.Base p, serial_tree false n)] = upload_node p n.
Proof. unfold upload_node. now destruct (IsDir n). Qed.

Lemma upload_node_dir p n :
  negb (IsDir n) = false -> serial_tree false n = upload_node p n.
Proof. unfold upload_node. now destruct (IsDir n). Qed.

Ltac sim_lib :=
  unfold available in *;
  sim;
  cbn [path_cid path_FromCid app existsb Signal_eqb
       orb negb andb fi_IsDir ctx_deadline context_Background] in *;
  rewrite ?find_dag_head, ?print_names_eq in *.

Ltac fold_upload :=
  match goal with
  | H : negb (IsDir ?n) = true |- upload_result _ _ ?p _ _ =>
      rewrite !(upload_node_file p n H)
  | H : negb (IsDir ?n) = false |- upload_result _ _ ?p _ _ =>
      rewrite !(upload_node_dir p n H)
  end;
  match goal with
  | |- context [String.append "/ipfs/" (cid_String ?L (dag_cid ?L ?x))] =>
      change (String.append "/ipfs/" (cid_String L (dag_cid L x)))
        with (cid_text L x)
  end.

Lemma UploadFiles_result L E p s : upload_result L E p s (UploadFiles L E p s).
Proof.
  unfold UploadFiles, enter. sim.
  pose proof (StartIpfsNode_post E (set_calls (calls s ++ [OpUpload p]) s)) as Hst.
  destruct (StartIpfsNode E _) as [[[[ctx api] cancel] err] s1|e s1|s1|g s1];
    cbn [start_post] in Hst; try contradiction.
  - destruct Hst as (-> & [a ->] & -> & -> & Hclean & Hsame & Hout & Hrun).
    destruct Hsame as (Hfs & Hdags & Hcalls & Hsig & Hnot & Hspin). sim.
    unfold GetUnixfsNode, os_Stat, files_NewSerialFile, FileInfo_IsDir,
      unixfs_Add, unixfs_Ls, await_dag, Node_Size, go_, signal_Notify,
      recv_signal, cancel_nodes, files_NewSliceDirectory, ImmutablePath_String,
      Context_Done.
    sim_lib.
    repeat (match goal with
          | |- upload_result _ _ _ _ ?t =>
              let h := stuck t in destruct h eqn:?; sim_lib;
              rewrite ?Hsig, ?Hfs;
              try match goal with
                  | H : fs_lookup _ _ = _ |- _ => rewrite H
                  end;
              sim_lib
          end).
    all: try match goal with H : (_ =? "") = true |- _ => apply String.eqb_eq in H end.
    all: try match goal with H : (_ =? "") = false |- _ => apply String.eqb_neq in H end.
    all: try fold_upload.
    all: try (eapply up_panic;
         [ intros (Hc & H1 & H2 & H3 & H4 & H5 & H6 & H7); congruence
         | sim; rewrite ?Hcalls; reflexivity
         | sim; assumption
         | first [ left; exists 3; sim; rewrite Hout; reflexivity
                 | right; eexists; eexists; split; [eassumption|];
                   sim; rewrite Hout, <- !app_assoc; cbn [app]; reflexivity ] ]; fail).
    all: assert (Hcl : upload_clean E p s)
      by (split; [exact Hclean|]; repeat (split; [assumption|]); congruence).
    all: first [ eapply up_waiting | eapply up_killed | eapply up_returned ];
      try eassumption; sim; try assumption; try congruence; auto.
    all: try (match goal with
              | H : (Signal_eqb ?g _ || _)%bool = _ |- _ =>
                  destruct g; cbn in H; try discriminate; auto;
                  intro; discriminate
              end).
    all: unfold published, seeding_lines, size_line, adios; sim;
      rewrite ?Hcalls, ?Hout, ?Hdags, <- ?app_assoc; cbn [app];
      rewrite ?app_nil_r, <- ?app_assoc; cbn [app]; repeat split; auto.
  - destruct Hst as (Hn & Hsame & Hout).
    destruct Hsame as (Hfs & Hdags & Hcalls & Hsig & Hnot & Hspin). sim.
    apply up_panic; auto.
    + intros (Hc & _). exact (Hn Hc).
    + left. exists 2. exact Hout.
Qed.

(** ** The ways [DownloadFromCid] ends *)

Lemma DownloadFromCid_result L E c0 s :
  download_result L E c0 s (DownloadFromCid L E c0 s).
Proof.
  unfold DownloadFromCid, enter. sim.
  pose proof (StartIpfsNode_post E (set_calls (calls s ++ [OpDownload c0]) s)) as Hst.
  destruct (StartIpfsNode E _) as [[[[ctx api] cancel] err] s1|e s1|s1|g s1];
    cbn [start_post] in Hst; try contradiction.
  - destruct Hst as (-> & [a ->] & -> & -> & Hclean & Hsame & Hout & Hrun).
    destruct Hsame as (Hfs & Hdags & Hcalls & Hsig & Hnot & Hspin). sim.
    unfold unixfs_Get, unixfs_Ls, await_dag, cid_Parse, os_MkdirAll,
      files_WriteTo, cancel_nodes, Context_Done.
    sim_lib.
    repeat (match goal with
          | |- download_result _ _ _ _ ?t =>
              let h := stuck t in destruct h eqn:?; sim_lib;
              rewrite ?Hfs, ?Hdags;
              try match goal with
                  | H : find_dag _ _ _ = _ |- _ => rewrite H
                  end;
              sim_lib
          end).
    all: try (eapply dl_panic;
              [ intros (c' & cid' & (Hc & Hg & Hd & Hf) & Hfind); congruence
              | intros c' nd r1 r2
                  ((cid' & (Hc & Hg & Hd & Hf) & Hfind)
                   & Hl & Hm & Hw & Hmk & Hlk & Hwr & Hcr);
                congruence
              | sim; assumption ]; fail).
    all: assert (Hrd : fetch_ready L E c0 s s0 c)
      by (split; [exact Hclean|]; repeat split; assumption).
    + eapply dl_done with (nd := n) (r1 := n0) (r2 := n1); sim; auto.
      * split; [exists c; split; assumption|]. repeat split; assumption.
      * unfold fetching_line, wrote_line. rewrite Hout, <- !app_assoc.
        cbn [app]. reflexivity.
    + eapply dl_waiting; sim; auto. exists s0, c. split; assumption.
  - destruct Hst as (Hn & Hsame & Hout).
    destruct Hsame as (Hfs & Hdags & Hcalls & Hsig & Hnot & Hspin). sim.
    apply dl_panic; auto.
    + intros (c' & cid' & (Hc & _) & _). exact (Hn Hc).
    + intros c' nd r1 r2 ((cid' & (Hc & _) & _) & _). exact (Hn Hc).
Qed.

(* ------------------------------------------------------------------ *)
(** ** File trees *)

Lemma assoc_set_entry_same (c : string) (v : Node) (es : list (string * Node)) :
  assoc c es <> None -> assoc c (set_entry c v es) = Some v.
Proof.
  induction es as [|[k v0] es IH]; simpl; intros H; [congruence|].
  destruct (String.eqb k c) eqn:Ek; simpl; rewrite Ek; auto.
Qed.

Lemma assoc_snoc_new (c : string) (v : Node) (es : list (string * Node)) :
  assoc c es = None -> assoc c (es ++ [(c, v)]) = Some v.
Proof.
  induction es as [|[k v0] es IH]; simpl; intros H.
  - now rewrite String.eqb_refl.
  - destruct (String.eqb k c); [discriminate | auto].
Qed.

Lemma set_entry_same (c : string) (v : Node) (es : list (string * Node)) :
  assoc c es = Some v -> set_entry c v es = es.
Proof.
  induction es as [|[k v0] es IH]; simpl; intros H; [reflexivity|].
  destruct (String.eqb k c); [congruence | now rewrite IH].
Qed.

Lemma fs_lookup_snoc (p : list string) (x : string) :
  forall r,
    fs_lookup r (p ++ [x])
    = match fs_lookup r p with
      | Some (Dir es) => assoc x es
      | _ => None
      end.
Proof.
  induction p as [|c p IH]; intros r; simpl.
  - destruct r as [d|es]; [reflexivity|]. now destruct (assoc x es).
  - destruct r as [d|es]; [reflexivity|].
    destruct (assoc c es) as [ch|]; [apply IH | reflexivity].
Qed.

Lemma fs_lookup_app (p q : list string) :
  forall r,
    fs_lookup r (p ++ q)
    = match fs_lookup r p with
      | Some n => fs_lookup n q
      | None => None
      end.
Proof.
  induction p as [|c p IH]; intros r; simpl; [reflexivity|].
  destruct r as [d|es]; [reflexivity|].
  destruct (assoc c es) as [ch|]; [apply IH | reflexivity].
Qed.

(** After [MkdirAll] the directory exists. *)
Lemma fs_mkdir_all_dir (p : list string) :
  forall r r1,
    fs_mkdir_all p r = Some r1 -> exists es, fs_lookup r1 p = Some (Dir es).
Proof.
  induction p as [|c p IH]; intros r r1 H; destruct r as [d|es];
    simpl in H; try discriminate.
  - injection H as <-. simpl; eauto.
  - destruct (assoc c es) as [ch|] eqn:Ea.
    + destruct (fs_mkdir_all p ch) as [ch'|] eqn:Em; [|discriminate].
      injection H as <-. simpl.
      rewrite assoc_set_entry_same by congruence. eauto.
    + destruct (fs_mkdir_all p (Dir [])) as [ch'|] eqn:Em; [|discriminate].
      injection H as <-. simpl.
      rewrite assoc_snoc_new by assumption. eauto.
Qed.

(** ... and so does every directory above it. *)
Lemma fs_mkdir_all_prefix (p q : list string) :
  forall r r1,
    fs_mkdir_all (p ++ q) r = Some r1 ->
    exists es, fs_lookup r1 p = Some (Dir es).
Proof.
  induction p as [|c p IH]; intros r r1 H; destruct r as [d|es].
  - destruct q; discriminate.
  - destruct r1 as [d1|es1]; simpl; eauto.
    destruct q as [|c q]; simpl in H; [discriminate|].
    destruct (assoc c es); [destruct (fs_mkdir_all q n)
                           | destruct (fs_mkdir_all q (Dir []))];
      discriminate.
  - discriminate.
  - simpl in H. destruct (assoc c es) as [ch|] eqn:Ea.
    + destruct (fs_mkdir_all (p ++ q) ch) as [ch'|] eqn:Em; [|discriminate].
      injection H as <-. simpl.
      rewrite assoc_set_entry_same by congruence. eauto.
    + destruct (fs_mkdir_all (p ++ q) (Dir [])) as [ch'|] eqn:Em;
        [|discriminate].
      injection H as <-. simpl.
      rewrite assoc_snoc_new by assumption. eauto.
Qed.

(** [MkdirAll] on a directory that exists changes nothing. *)
Lemma fs_mkdir_all_existing (p : list string) :
  forall r es, fs_lookup r p = Some (Dir es) -> fs_mkdir_all p r = Some r.
Proof.
  induction p as [|c p IH]; intros r es H; destruct r as [d|es0];
    simpl in H; try discriminate.
  - reflexivity.
  - simpl. destruct (assoc c es0) as [ch|] eqn:Ea; [|discriminate].
    rewrite (IH _ _ H). now rewrite set_entry_same.
Qed.

(** A name that is free under [p] stays free when [p] is made. *)
Lemma fs_mkdir_all_free (p : list string) (x : string) :
  forall r r1,
    fs_mkdir_all p r = Some r1 ->
    fs_lookup r (p ++ [x]) = None ->
    fs_lookup r1 (p ++ [x]) = None.
Proof.
  induction p as [|c p IH]; intros r r1 H Hf; destruct r as [d|es];
    simpl in H; try discriminate.
  - now injection H as <-.
  - simpl in Hf. destruct (assoc c es) as [ch|] eqn:Ea.
    + destruct (fs_mkdir_all p ch) as [ch'|] eqn:Em; [|discriminate].
      injection H as <-. simpl.
      rewrite assoc_set_entry_same by congruence. eauto.
    + destruct (fs_mkdir_all p (Dir [])) as [ch'|] eqn:Em; [|discriminate].
      injection H as <-. simpl.
      rewrite assoc_snoc_new by assumption.
      apply (IH _ _ Em). rewrite fs_lookup_snoc.
      destruct p; simpl; reflexivity.
Qed.

(** What [WriteTo] has created is found where it was put. *)
Lemma fs_create_lookup (p : list string) (nd : Node) :
  forall r r2, fs_create p nd r = Some r2 -> fs_lookup r2 p = Some nd.
Proof.
  induction p as [|c p IH]; intros r r2 H; simpl in H; [discriminate|].
  destruct r as [d|es]; [discriminate|].
  destruct (assoc c es) as [ch|] eqn:Ea.
  - destruct (fs_create p nd ch) as [ch'|] eqn:Ec; [|discriminate].
    injection H as <-. simpl.
    rewrite assoc_set_entry_same by congruence. eauto.
  - destruct p; [|discriminate]. injection H as <-. simpl.
    now rewrite assoc_snoc_new.
Qed.

(** The directory above it is still a directory. *)
Lemma fs_create_parent (p : list string) (x : string) (nd : Node) :
  forall r r2 es,
    fs_create (p ++ [x]) nd r = Some r2 ->
    fs_lookup r p = Some (Dir es) ->
    exists es', fs_lookup r2 p = Some (Dir es').
Proof.
  induction p as [|c p IH]; intros r r2 es H Hp; simpl in H.
  - destruct r as [d|es0]; [discriminate|].
    destruct (assoc x es0); [discriminate|]. injection H as <-. simpl; eauto.
  - destruct r as [d|es0]; [discriminate|]. simpl in Hp.
    destruct (assoc c es0) as [ch|] eqn:Ea; [|discriminate].
    destruct (fs_create (p ++ [x]) nd ch) as [ch'|] eqn:Ec; [|discriminate].
    injection H as <-. simpl.
    rewrite assoc_set_entry_same by congruence. eauto.
Qed.

(** A free name in an existing directory can be created. *)
Lemma fs_create_ok (p : list string) (x : string) (nd : Node) :
  forall r es,
    fs_lookup r p = Some (Dir es) -> assoc x es = None ->
    exists r2, fs_create (p ++ [x]) nd r = Some r2.
Proof.
  induction p as [|c p IH]; intros r es Hp Hx; simpl in Hp.
  - injection Hp as ->. simpl. rewrite Hx. eauto.
  - destruct r as [d|es0]; [discriminate|].
    destruct (assoc c es0) as [ch|] eqn:Ea; [|discriminate].
    simpl. rewrite Ea.
    destruct (IH _ _ Hp Hx) as [ch' ->]. eauto.
Qed.

(* ------------------------------------------------------------------ *)
(** ** Paths *)

Lemma split_nonempty (s : string) : Filepath.split s <> [].
Proof.
  destruct s as [|c s]; simpl; [discriminate|].
  destruct (Ascii.eqb c "/"); [discriminate|].
  destruct (Filepath.split s); discriminate.
Qed.

Lemma split_app_slash (a b : string) :
  Filepath.split (a ++ String "/" b)
  = (Filepath.split a ++ Filepath.split b)%list.
Proof.
  induction a as [|c a IH]; simpl; [reflexivity|].
  destruct (Ascii.eqb c "/"); [now rewrite IH|].
  rewrite IH. pose proof (split_nonempty a) as Hn.
  destruct (Filepath.split a); [congruence | reflexivity].
Qed.

Lemma split_no_slash (c : string) :
  no_slash c = true -> Filepath.split c = [c].
Proof.
  induction c as [|x c IH]; simpl; intros H; [reflexivity|].
  apply andb_true_iff in H as [Hx Hc].
  apply negb_true_iff in Hx. rewrite Hx, (IH Hc). reflexivity.
Qed.

Lemma IsAbs_app_slash (a b : string) :
  Filepath.IsAbs (a ++ String "/" b) = Filepath.IsAbs (a ++ "/").
Proof. destruct a; reflexivity. Qed.

Lemma clean_step_proper (rooted : bool) (st : list string) (c : string) :
  c <> "" -> c <> "." -> c <> ".." ->
  Filepath.clean_step rooted st c = c :: st.
Proof.
  intros H1 H2 H3. unfold Filepath.clean_step.
  apply String.eqb_neq in H1, H2, H3. now rewrite H1, H2, H3.
Qed.

Lemma resolve_rel (E : Env) (p : string) :
  Filepath.IsAbs p = false ->
  resolve E p
  = rev (fold_left (Filepath.clean_step (Filepath.IsAbs (cwd E ++ "/")))
                   (Filepath.split p) (cwd_stack E)).
Proof.
  intros H. unfold resolve, Filepath.elements, cwd_stack. rewrite H.
  change (cwd E ++ "/" ++ p) with (cwd E ++ String "/" p).
  now rewrite IsAbs_app_slash, split_app_slash, fold_left_app.
Qed.

Lemma resolve_Download (E : Env) :
  resolve E "Download" = (rev (cwd_stack E) ++ ["Download"])%list.
Proof. now rewrite resolve_rel. Qed.

Lemma resolve_dot (E : Env) : resolve E "." = rev (cwd_stack E).
Proof. now rewrite resolve_rel. Qed.

Lemma Clean_Download (c : string) :
  proper_name c -> Filepath.Clean ("./Download/" ++ c) = "Download/" ++ c.
Proof.
  intros (H1 & H2 & H3 & H4).
  unfold Filepath.Clean, Filepath.elements.
  change (Filepath.IsAbs ("./Download/" ++ c)) with false.
  change ("./Download/" ++ c) with ("./Download" ++ String "/" c).
  rewrite split_app_slash, (split_no_slash c H4).
  cbn [Filepath.split Ascii.eqb Bool.eqb app fold_left].
  change (Filepath.clean_step false [] ".") with (@nil string).
  change (Filepath.clean_step false [] "Download") with ["Download"].
  rewrite clean_step_proper by assumption.
  reflexivity.
Qed.

Lemma resolve_target (E : Env) (c : string) :
  proper_name c ->
  resolve E (Filepath.Clean ("./Download/" ++ c))
  = (resolve E "Download" ++ [c])%list.
Proof.
  intros Hc. rewrite (Clean_Download c Hc), resolve_Download.
  destruct Hc as (H1 & H2 & H3 & H4).
  rewrite resolve_rel by reflexivity.
  change ("Download/" ++ c) with ("Download" ++ String "/" c).
  rewrite split_app_slash, (split_no_slash c H4), fold_left_app.
  cbn [Filepath.split Ascii.eqb Bool.eqb fold_left].
  rewrite clean_step_proper by assumption.
  change (Filepath.clean_step ?r ?st "Download") with ("Download" :: st).
  cbn [rev]. now rewrite <- app_assoc.
Qed.

Lemma no_slash_cases (c : string) :
  no_slash c = true -> proper_name c \/ c = "" \/ c = "." \/ c = "..".
Proof.
  intros H. unfold proper_name.
  destruct (String.string_dec c "") as [->|H1]; auto.
  destruct (String.string_dec c ".") as [->|H2]; auto.
  destruct (String.string_dec c "..") as [->|H3]; auto.
Qed.

Lemma all_in_no_slash_trim (suffix l r t : string) :
  suffix = l ++ r ++ t -> no_slash suffix = true -> no_slash r = true.
Proof.
  intros -> H. rewrite !no_slash_app in H.
  apply andb_true_iff in H as [_ H]. now apply andb_true_iff in H as [H _].
Qed.

(** The stripped string never holds a separator. *)
Lemma GetCidStrFromString_no_slash (s c : string) :
  GetCidStrFromString s = Some c -> no_slash c = true.
Proof.
  intros H.
  assert (Hcut : cid_cutset <> "") by discriminate.
  destruct (LastIndex_slash s) as [[_ Hn]|(pre & suf & -> & Hn & _)].
  - rewrite (GetCidStrFromString_noslash s Hn) in H. injection H as <-.
    destruct (Trim_spec s cid_cutset Hcut) as (l & t & Hs & _).
    exact (all_in_no_slash_trim _ _ _ _ Hs Hn).
  - rewrite (GetCidStrFromString_slash pre suf Hn) in H. injection H as <-.
    destruct (Trim_spec suf cid_cutset Hcut) as (l & t & Hs & _).
    exact (all_in_no_slash_trim _ _ _ _ Hs Hn).
Qed.

(* ------------------------------------------------------------------ *)
(** ** Reading the outcome of [DownloadFromCid] *)

Ltac splits := repeat match goal with |- _ /\ _ => split end.

Lemma fetch_ready_fun (L : Lib) (E : Env) (c0 : string) (s : State)
      (c c' : string) (cid cid' : Cid) :
  fetch_ready L E c0 s c cid -> fetch_ready L E c0 s c' cid' ->
  c = c' /\ cid = cid'.
Proof.
  intros (_ & H1 & H2 & _) (_ & H1' & H2' & _).
  assert (c = c') by congruence. subst c'. split; congruence.
Qed.

Lemma fetch_writes_not_hangs (L : Lib) (E : Env) (c0 : string) (s : State)
      (c : string) (nd r1 r2 : Node) :
  fetch_writes L E c0 s c nd r1 r2 -> ~ fetch_hangs L E c0 s.
Proof.
  intros ((cid & Hr & Hf) & _) (c' & cid' & Hr' & Hf').
  destruct (fetch_ready_fun _ _ _ _ _ _ _ _ Hr Hr') as [-> ->]. congruence.
Qed.

Lemma fetch_writes_fun (L : Lib) (E : Env) (c0 : string) (s : State)
      (c c' : string) (nd nd' r1 r1' r2 r2' : Node) :
  fetch_writes L E c0 s c nd r1 r2 -> fetch_writes L E c0 s c' nd' r1' r2' ->
  c = c' /\ nd = nd' /\ r1 = r1' /\ r2 = r2'.
Proof.
  intros ((cid & Hr & Hf) & _ & _ & _ & Hm & _ & _ & Hc)
         ((cid' & Hr' & Hf') & _ & _ & _ & Hm' & _ & _ & Hc').
  destruct (fetch_ready_fun _ _ _ _ _ _ _ _ Hr Hr') as [-> ->].
  assert (nd = nd') by congruence. assert (r1 = r1') by congruence.
  subst. repeat split; congruence.
Qed.

Lemma download_Ret_inv (L : Lib) (E : Env) (c0 : string) (s s' : State)
      (out : string) (err : error) (pr : Z) :
  DownloadFromCid L E c0 s = Ret (out, err, pr) s' ->
  exists c nd r1 r2,
    fetch_writes L E c0 s c nd r1 r2 /\
    out = "./Download/" ++ c /\ err = None /\ pr = 100%Z /\
    calls s' = (calls s ++ [OpDownload c0])%list /\
    fs_root s' = r2 /\
    stdout s' = (stdout s ++ start_lines ++ fetching_line c
                   :: names_lines (ls_names L nd) 0 ++ [wrote_line c])%list /\
    local_dags s' = [] /\ running s' = [].
Proof.
  intros H. pose proof (DownloadFromCid_result L E c0 s) as R.
  rewrite H in R.
  remember (Ret (out, err, pr) s') as o eqn:Ho.
  destruct R as [| |c nd r1 r2 s'' W Hc Hfs Hout Hd Hr]; try discriminate.
  injection Ho as <- <- <- <-.
  exists c, nd, r1, r2. splits; auto.
Qed.

Lemma download_Blocked_inv (L : Lib) (E : Env) (c0 : string) (s s' : State) :
  DownloadFromCid L E c0 s = Blocked s' ->
  fetch_hangs L E c0 s /\ fs_root s' = fs_root s /\
  calls s' = (calls s ++ [OpDownload c0])%list.
Proof.
  intros H. pose proof (DownloadFromCid_result L E c0 s) as R.
  rewrite H in R.
  remember (@Blocked (string * error * Z) s') as o eqn:Ho.
  destruct R; try discriminate.
  injection Ho as <-. auto.
Qed.

Lemma download_not_Killed (L : Lib) (E : Env) (c0 : string) (s s' : State)
      (g : Signal) :
  DownloadFromCid L E c0 s <> Killed g s'.
Proof.
  intros H. pose proof (DownloadFromCid_result L E c0 s) as R.
  rewrite H in R. inversion R.
Qed.

Lemma download_writes (L : Lib) (E : Env) (c0 : string) (s : State)
      (c : string) (nd r1 r2 : Node) :
  fetch_writes L E c0 s c nd r1 r2 ->
  exists s',
    DownloadFromCid L E c0 s = Ret ("./Download/" ++ c, None, 100%Z) s' /\
    fs_root s' = r2 /\ local_dags s' = [] /\ running s' = [] /\
    In (wrote_line c) (stdout s').
Proof.
  intros W. pose proof (DownloadFromCid_result L E c0 s) as R.
  destruct R as [e s' Hh Hw _|s' Hh _ _|c' nd' r1' r2' s' W' _ Hfs Hout Hd Hr].
  - destruct (Hw _ _ _ _ W).
  - destruct (fetch_writes_not_hangs _ _ _ _ _ _ _ _ W Hh).
  - destruct (fetch_writes_fun _ _ _ _ _ _ _ _ _ _ _ _ W W')
      as (<- & <- & <- & <-).
    exists s'. splits; auto.
    rewrite Hout. apply in_or_app; right. apply in_or_app; right.
    right. apply in_or_app; right. now left.
Qed.

Lemma download_hangs (L : Lib) (E : Env) (c0 : string) (s : State) :
  fetch_hangs L E c0 s ->
  exists s', DownloadFromCid L E c0 s = Blocked s' /\ fs_root s' = fs_root s.
Proof.
  intros Hh. pose proof (DownloadFromCid_result L E c0 s) as R.
  destruct R as [e s' Hn _ _|s' _ _ Hfs|c' nd' r1' r2' s' W' _ _ _ _ _].
  - destruct (Hn Hh).
  - eauto.
  - destruct (fetch_writes_not_hangs _ _ _ _ _ _ _ _ W' Hh).
Qed.

Lemma download_panics (L : Lib) (E : Env) (c0 : string) (s : State) :
  ~ fetch_hangs L E c0 s ->
  (forall c nd r1 r2, ~ fetch_writes L E c0 s c nd r1 r2) ->
  exists e s', DownloadFromCid L E c0 s = Panic e s'.
Proof.
  intros Hh Hw. pose proof (DownloadFromCid_result L E c0 s) as R.
  destruct R as [e s' _ _ _|s' Hh' _ _|c' nd' r1' r2' s' W' _ _ _ _ _].
  - eauto.
  - destruct (Hh Hh').
  - destruct (Hw _ _ _ _ W').
Qed.

(** ** Reading the outcome of [UploadFiles] *)

Lemma published_added (L : Lib) (p : string) (n : Node) (s s' : State)
      (extra : list string) (dags : list Node) :
  published L p n s s' extra dags ->
  exists rest,
    stdout s' = (stdout s ++ start_lines
                   ++ added_message (cid_text L (upload_node p n)) :: rest)%list.
Proof.
  intros (_ & _ & Ho & _). unfold seeding_lines in Ho.
  eexists. rewrite Ho. cbn [app]. reflexivity.
Qed.

Lemma upload_Ret_inv (L : Lib) (E : Env) (p : string) (s s' : State)
      (r : string) (err : error) :
  UploadFiles L E p s = Ret (r, err) s' ->
  exists n g rest,
    upload_clean E p s /\
    fs_lookup (fs_root s) (resolve E p) = Some n /\
    signals s = g :: rest /\ (g = SIGINT \/ g = SIGTERM) /\
    r = cid_text L (upload_node p n) /\ err = None /\
    published L p n s s' [adios] [] /\ signals s' = rest /\ running s' = [].
Proof.
  intros H. pose proof (UploadFiles_result L E p s) as R.
  rewrite H in R.
  remember (Ret (r, err) s') as o eqn:Ho.
  destruct R; try discriminate.
  injection Ho as <- <- <-.
  exists n, g, rest. splits; auto.
Qed.

Lemma upload_Blocked_inv (L : Lib) (E : Env) (p : string) (s s' : State) :
  UploadFiles L E p s = Blocked s' ->
  exists n,
    upload_clean E p s /\
    fs_lookup (fs_root s) (resolve E p) = Some n /\
    signals s = [] /\
    published L p n s s' [] (upload_node p n :: local_dags s) /\
    running s' <> [].
Proof.
  intros H. pose proof (UploadFiles_result L E p s) as R.
  rewrite H in R.
  remember (@Blocked (string * error) s') as o eqn:Ho.
  destruct R; try discriminate.
  injection Ho as <-.
  exists n. splits; auto.
Qed.



Lemma upload_panics (L : Lib) (E : Env) (p : string) (s : State) :
  ~ upload_clean E p s -> exists e s', UploadFiles L E p s = Panic e s'.
Proof.
  intros Hn. pose proof (UploadFiles_result L E p s) as R.
  destruct R; eauto; contradiction.
Qed.

(** With nothing failing, the signals decide. *)
Lemma upload_waits (L : Lib) (E : Env) (p : string) (s : State) :
  upload_clean E p s -> signals s = [] ->
  exists n s',
    fs_lookup (fs_root s) (resolve E p) = Some n /\
    UploadFiles L E p s = Blocked s' /\
    published L p n s s' [] (upload_node p n :: local_dags s) /\
    running s' <> [].
Proof.
  intros Hc Hs. pose proof (UploadFiles_result L E p s) as R.
  destruct R; try contradiction; try congruence.
  exists n, s'. auto.
Qed.

Lemma upload_returns (L : Lib) (E : Env) (p : string) (s : State)
      (g : Signal) (rest : list Signal) :
  upload_clean E p s -> signals s = g :: rest -> g = SIGINT \/ g = SIGTERM ->
  exists n s',
    fs_lookup (fs_root s) (resolve E p) = Some n /\
    UploadFiles L E p s = Ret (cid_text L (upload_node p n), None) s' /\
    published L p n s s' [adios] [] /\ running s' = [].
Proof.
  intros Hc Hs Hg. pose proof (UploadFiles_result L E p s) as R.
  destruct R as [| |n g' rest' s' _ Hl Hs' Hi Ht _ _|n g' rest' s' _ Hl Hs' _ Hp _ Hr];
    try contradiction; try congruence.
  - assert (g' = g) by congruence. subst. destruct Hg; contradiction.
  - exists n, s'. auto.
Qed.

(* ------------------------------------------------------------------ *)
(** ** Lemmas for the claims *)

Lemma GetCidStrFromString_total (s : string) :
  exists suffix l r t,
    GetCidStrFromString s = Some r /\
    ((no_slash s = true /\ suffix = s) \/
     (exists pre, s = pre ++ String "/" suffix)) /\
    no_slash suffix = true /\
    suffix = l ++ r ++ t /\
    all_in cid_cutset l = true /\ all_in cid_cutset t = true /\
    starts_clean cid_cutset r /\ ends_clean cid_cutset r.
Proof.
  assert (Hcut : cid_cutset <> "") by discriminate.
  destruct (LastIndex_slash s) as [[_ Hn]|(pre & suf & -> & Hn & _)].
  - destruct (Trim_spec s cid_cutset Hcut) as (l & t & Hs & Hl & Ht & Hb & He).
    exists s, l, (GoStrings.Trim s cid_cutset), t.
    splits; auto using GetCidStrFromString_noslash.
  - destruct (Trim_spec suf cid_cutset Hcut)
      as (l & t & Hs & Hl & Ht & Hb & He).
    exists suf, l, (GoStrings.Trim suf cid_cutset), t.
    splits; eauto using GetCidStrFromString_slash.
Qed.

Lemma GetCidStrFromString_ipfs (cid : string) :
  no_slash cid = true ->
  starts_clean cid_cutset cid -> ends_clean cid_cutset cid ->
  GetCidStrFromString ("/ipfs/" ++ cid) = Some cid.
Proof.
  intros Hn Hb He.
  change ("/ipfs/" ++ cid) with ("/ipfs" ++ String "/" cid).
  rewrite (GetCidStrFromString_slash "/ipfs" cid Hn).
  now rewrite Trim_id.
Qed.

Lemma download_output :
  forall L E cidStr s outputPath err progress s',
    DownloadFromCid L E cidStr s = Ret (outputPath, err, progress) s' ->
    exists c cid nd,
      GetCidStrFromString cidStr = Some c /\
      cid_Decode L c = Some cid /\
      find_dag L cid (local_dags s ++ remote_dags E) = Some nd /\
      proper_name c /\
      outputPath = "./Download/" ++ c /\
      (exists es,
          fs_lookup (fs_root s') (resolve E "Download") = Some (Dir es)) /\
      fs_lookup (fs_root s') (resolve E "Download" ++ [c])%list = Some nd.
Proof.
  intros L E cidStr s outputPath err progress s' H.
  destruct (download_Ret_inv _ _ _ _ _ _ _ _ H)
    as (c & nd & r1 & r2 & W & -> & _ & _ & _ & Hfs & _).
  destruct W as ((cid & (_ & Hc & Hp & _) & Hf) & _ & _ & _ & Hm & Hl & _ & Hcr).
  destruct (fs_mkdir_all_dir _ _ _ Hm) as [es Hd].
  exists c, cid, nd.
  destruct (no_slash_cases c (GetCidStrFromString_no_slash _ _ Hc))
    as [Hpn | [ -> | [ -> | -> ] ] ].
  - rewrite (resolve_target E c Hpn) in Hl, Hcr.
    splits; auto; rewrite Hfs.
    + exact (fs_create_parent _ _ _ _ _ _ Hcr Hd).
    + exact (fs_create_lookup _ _ _ _ Hcr).
  - change (Filepath.Clean ("./Download/" ++ "")) with "Download" in Hl.
    congruence.
  - change (Filepath.Clean ("./Download/" ++ ".")) with "Download" in Hl.
    congruence.
  - change (Filepath.Clean ("./Download/" ++ "..")) with "." in Hl.
    rewrite resolve_dot in Hl. rewrite resolve_Download in Hm.
    destruct (fs_mkdir_all_prefix _ _ _ _ Hm) as [es' Hd']. congruence.
Qed.

Lemma process_end_Panic {A} (o : Outcome A) :
  (exists e s', o = Panic e s') -> process_end o = Exited 2.
Proof. now intros (e & s' & ->). Qed.

Lemma upload_calls (L : Lib) (E : Env) (p : string) (s : State) :
  calls (final_state (UploadFiles L E p s)) = (calls s ++ [OpUpload p])%list.
Proof.
  destruct (UploadFiles_result L E p s) as
    [? ? _ H _ _|? ? _ _ _ (H & _) _ _|? ? ? ? _ _ _ _ _ (H & _) _
     |? ? ? ? _ _ _ _ (H & _) _ _]; exact H.
Qed.

Lemma download_calls (L : Lib) (E : Env) (c : string) (s : State) :
  calls (final_state (DownloadFromCid L E c s))
  = (calls s ++ [OpDownload c])%list.
Proof.
  destruct (DownloadFromCid_result L E c s); assumption.
Qed.

Lemma bind_ret_final {A} (m : M A) (s : State) :
  final_state ((_ <- m ;; ret tt) s) = final_state (m s) /\
  process_end ((_ <- m ;; ret tt) s) = process_end (m s).
Proof. unfold bind, ret. destruct (m s); auto. Qed.

Lemma published_serving (L : Lib) (p : string) (n : Node) (s s' : State)
      (extra : list string) (dags : list Node) :
  published L p n s s' extra dags ->
  In (added_message (cid_text L (upload_node p n))) (stdout s') /\
  local_dags s' = dags.
Proof.
  intros Hp. destruct (published_added _ _ _ _ _ _ _ Hp) as [tl Ho].
  destruct Hp as (_ & _ & _ & _ & Hd). split; [|exact Hd].
  rewrite Ho. apply in_or_app; right. apply in_or_app; right. now left.
Qed.


Lemma start_context (E : Env) (s s1 : State) (ctx : Context)
      (api : option CoreAPI) (cancel : M unit) (err : error) :
  StartIpfsNode E s = Ret (ctx, api, cancel, err) s1 ->
  ctx_deadline ctx = None.
Proof.
  intros H. pose proof (StartIpfsNode_post E s) as P. rewrite H in P.
  destruct P as (-> & _). reflexivity.
Qed.

Lemma SpawnEphemeral_post (E : Env) (ctx : Context) (s : State) :
  spawn_post E s (SpawnEphemeral E ctx s).
Proof.
  unfold SpawnEphemeral, sync_Once_Do, SetupPlugins,
    CreateTempRepo, CreateNode, loader_NewPluginLoader,
    PluginLoader_Initialize, PluginLoader_Inject, os_MkdirTemp, config_Init,
    fsrepo_Init, fsrepo_Open, core_NewNode, coreapi_NewCoreAPI.
  sim.
  repeat (rewrite ?find_repo_head;
          match goal with
          | |- spawn_post _ _ ?t =>
              let h := stuck t in destruct h eqn:?; sim
          end).
  all: unfold spawn_post; sim; rewrite ?Heqb; auto; try discriminate.
Qed.

Lemma spawn_many_runs (E : Env) (ctx : Context) (n : nat) :
  forall s,
    setup_runs (spawn_many E ctx n s)
    = (setup_runs s
       + (if loadPluginsOnce s then 0 else match n with O => 0 | S _ => 1 end))%nat /\
    (n <> O -> loadPluginsOnce (spawn_many E ctx n s) = true).
Proof.
  induction n as [|n IH]; intros s; cbn [spawn_many].
  - split; [destruct (loadPluginsOnce s); lia | congruence].
  - pose proof (SpawnEphemeral_post E ctx s) as P.
    destruct (SpawnEphemeral E ctx s) as [r s'| | |]; cbn [spawn_post] in P;
      try contradiction.
    cbn [final_state]. destruct P as [Hd Hr].
    destruct (IH s') as [IH1 IH2]. rewrite Hd in IH1. split.
    + rewrite IH1, Hr. destruct (loadPluginsOnce s); lia.
    + intros _. destruct n as [|n]; [exact Hd | now apply IH2].
Qed.

Lemma Node_ind2 (P : Node -> Prop) :
  (forall d, P (File d)) ->
  (forall es, Forall (fun e => P (snd e)) es -> P (Dir es)) ->
  forall n, P n.
Proof.
  intros HF HD. fix IH 1. intros [d|es]; [apply HF|].
  apply HD. induction es as [|[k v] es IHes]; constructor;
    [apply IH | exact IHes].
Qed.

Lemma writable_entries_mono (es : list (string * Node)) :
  forall seen seen',
    (forall x, mem_string x seen' = true -> mem_string x seen = true) ->
    writable_entries es seen = true -> writable_entries es seen' = true.
Proof.
  induction es as [|[name ch] es IH]; intros seen seen' Hsub H;
    [reflexivity|].
  cbn [writable_entries] in *.
  apply andb_true_iff in H as [H H4]. apply andb_true_iff in H as [H H3].
  apply andb_true_iff in H as [H1 H2].
  rewrite H1, H3. cbn [andb].
  apply negb_true_iff in H2.
  destruct (mem_string name seen') eqn:Em.
  - rewrite (Hsub _ Em) in H2. discriminate.
  - cbn [negb andb]. apply (IH (name :: seen)); auto.
    intros x. unfold mem_string. cbn [existsb].
    intros Hx. apply orb_true_iff in Hx as [Hx|Hx].
    + now rewrite Hx.
    + apply orb_true_iff; right. exact (Hsub _ Hx).
Qed.

(** Skipping hidden entries keeps a tree writable. *)
Lemma writable_serial (h : bool) (n : Node) :
  writable n = true -> writable (serial_tree h n) = true.
Proof.
  induction n as [d|es IH] using Node_ind2; [auto|].
  change (writable (Dir es)) with (writable_entries es []).
  change (writable (serial_tree h (Dir es)))
    with (writable_entries (serial_entries h es) []).
  generalize (@nil string).
  induction es as [|[name ch] es IHes]; intros seen H; [reflexivity|].
  inversion IH as [|? ? Hch Hes]; subst.
  cbn [writable_entries] in H.
  apply andb_true_iff in H as [H H4]. apply andb_true_iff in H as [H H3].
  apply andb_true_iff in H as [H1 H2].
  cbn [serial_entries].
  destruct (h || negb (isHidden name))%bool.
  - cbn [writable_entries]. rewrite H1, H2. cbn [andb].
    cbn [snd] in Hch. rewrite (Hch H3). cbn [andb]. now apply IHes.
  - apply (writable_entries_mono _ (name :: seen)); [|now apply IHes].
    intros x Hx. unfold mem_string. cbn [existsb].
    apply orb_true_iff; now right.
Qed.

(** Without hidden entries the tree is served as it is. *)
Lemma serial_no_hidden (n : Node) :
  no_hidden n = true -> serial_tree false n = n.
Proof.
  induction n as [d|es IH] using Node_ind2; [auto|].
  change (no_hidden (Dir es)) with (no_hidden_entries es).
  change (serial_tree false (Dir es)) with (Dir (serial_entries false es)).
  intros H. f_equal.
  induction es as [|[name ch] es IHes]; [reflexivity|].
  inversion IH as [|? ? Hch Hes]; subst. cbn [snd] in Hch.
  cbn [no_hidden_entries] in H.
  apply andb_true_iff in H as [H H3]. apply andb_true_iff in H as [H1 H2].
  cbn [serial_entries]. rewrite H1. cbn [orb].
  now rewrite (Hch H2), (IHes Hes H3).
Qed.

Lemma upload_node_file_eq (p : string) (n : Node) :
  IsDir n = false -> upload_node p n = Dir [(Filepath.Base p, n)].
Proof. destruct n; [reflexivity | discriminate]. Qed.

Lemma upload_node_dir_eq (p : string) (n : Node) :
  IsDir n = true -> upload_node p n = serial_tree false n.
Proof. intros H. unfold upload_node. now rewrite H. Qed.

Lemma writable_upload_node (p : string) (n : Node) :
  writable n = true ->
  (IsDir n = false -> valid_entry_name (Filepath.Base p) = true) ->
  writable (upload_node p n) = true.
Proof.
  intros Hw Hb. unfold upload_node. destruct (IsDir n).
  - now apply writable_serial.
  - cbn. rewrite (Hb eq_refl), (writable_serial false n Hw). reflexivity.
Qed.

Lemma find_dag_unique (L : Lib) (nd : Node) (l : list Node) :
  In nd l ->
  (forall m, In m l -> dag_cid L m = dag_cid L nd -> m = nd) ->
  find_dag L (dag_cid L nd) l = Some nd.
Proof.
  unfold find_dag. induction l as [|x l IH]; intros Hin Hu; [destruct Hin|].
  cbn [find]. destruct (String.eqb_spec (dag_cid L x) (dag_cid L nd)) as [He|Hne].
  - f_equal. apply Hu; [now left | exact He].
  - destruct Hin as [->|Hin]; [congruence|].
    apply IH; auto. intros m Hm. apply Hu. now right.
Qed.

Lemma Trim_clean (c : string) :
  GoStrings.Trim c cid_cutset = c ->
  no_slash c = true ->
  GetCidStrFromString ("/ipfs/" ++ c) = Some c.
Proof.
  intros Ht Hn.
  change ("/ipfs/" ++ c) with ("/ipfs" ++ String "/" c).
  rewrite (GetCidStrFromString_slash "/ipfs" c Hn). now rewrite Ht.
Qed.

(* ================================================================== *)
(** * The claims *)

(** ** Publish, then fetch *)

(** C1, as the code has it.  A publisher that waits for its signal serves
    the tree [upload_node p n] of the input [n]: the input without its
    hidden entries when it is a directory, and a directory holding the file
    under its base name when it is a regular file.  A fetch of the printed
    CID text from a node that reaches the publisher returns, and the tree
    it writes at [Download/<cid>] is exactly that tree, names and bytes. *)
Theorem publish_then_fetch :
  forall L EA EB p sA sB n,
    (* the publisher *)
    upload_clean EA p sA -> signals sA = [] ->
    fs_lookup (fs_root sA) (resolve EA p) = Some n ->
    writable n = true ->
    (IsDir n = false -> valid_entry_name (Filepath.Base p) = true) ->
    let nd := upload_node p n in
    let c := cid_String L (dag_cid L nd) in
    (* the text of the CID parses back, and is a plain name *)
    cid_Decode L c = Some (dag_cid L nd) ->
    proper_name c -> GoStrings.Trim c cid_cutset = c ->
    (* the node that fetches: nothing fails, the publisher is a peer *)
    startup_clean EB sB ->
    faults EB UnixfsGet = None -> faults EB UnixfsLs = None ->
    faults EB OsMkdirAll = None -> faults EB FilesWriteTo = None ->
    In nd (remote_dags EB) ->
    (forall m, In m (local_dags sB ++ remote_dags EB) ->
               dag_cid L m = dag_cid L nd -> m = nd) ->
    fs_mkdir_all (resolve EB "Download") (fs_root sB) <> None ->
    fs_lookup (fs_root sB) (resolve EB "Download" ++ [c])%list = None ->
    exists sA' sB',
      UploadFiles L EA p sA = Blocked sA' /\
      In nd (local_dags sA') /\
      In (added_message ("/ipfs/" ++ c)) (stdout sA') /\
      DownloadFromCid L EB ("/ipfs/" ++ c) sB
      = Ret ("./Download/" ++ c, None, 100%Z) sB' /\
      fs_lookup (fs_root sB') (resolve EB "Download" ++ [c])%list = Some nd /\
      (IsDir n = true -> nd = serial_tree false n) /\
      (IsDir n = true -> no_hidden n = true -> nd = n) /\
      (IsDir n = false -> nd = Dir [(Filepath.Base p, n)]).
Proof.
  intros L EA EB p sA sB n Hclean Hsig Hl Hw Hb nd c Hdec Hpn Htrim
         HcleanB HfG HfL HfM HfW Hin Huniq Hmk Hfree.
  destruct (upload_waits L EA p sA Hclean Hsig)
    as (n' & sA' & Hl' & Hu & Hp & _).
  assert (n' = n) by congruence. subst n'.
  destruct (published_serving _ _ _ _ _ _ _ Hp) as [Hadd Hd].
  destruct (fs_mkdir_all (resolve EB "Download") (fs_root sB)) as [r1|] eqn:Hm;
    [|congruence].
  destruct (fs_mkdir_all_dir _ _ _ Hm) as [es Hdir].
  pose proof (fs_mkdir_all_free _ c _ _ Hm Hfree) as Hfree1.
  assert (Hx : assoc c es = None).
  { rewrite fs_lookup_snoc, Hdir in Hfree1. exact Hfree1. }
  destruct (fs_create_ok _ c nd _ _ Hdir Hx) as [r2 Hcr].
  assert (W : fetch_writes L EB ("/ipfs/" ++ c) sB c nd r1 r2).
  { unfold fetch_writes, fetch_ready.
    rewrite (resolve_target EB c Hpn). splits; auto.
    - exists (dag_cid L nd). splits; auto.
      + apply Trim_clean; [exact Htrim | apply Hpn].
      + apply find_dag_unique; [apply in_or_app; now right | exact Huniq].
    - now apply writable_upload_node. }
  destruct (download_writes _ _ _ _ _ _ _ _ W) as (sB' & Hdl & Hfs & _).
  exists sA', sB'. splits; auto.
  - rewrite Hd. now left.
  - rewrite Hfs. exact (fs_create_lookup _ _ _ _ Hcr).
  - apply upload_node_dir_eq.
  - intros H Hh. unfold nd. rewrite (upload_node_dir_eq p n H).
    now apply serial_no_hidden.
  - apply upload_node_file_eq.
Qed.

Lemma publish_then_fetch_witness :
  exists sA' sB',
    UploadFiles Example.lib (Example.env []) "a.txt"
                (Example.start Example.root []) = Blocked sA' /\
    In Example.wrapped (local_dags sA') /\
    In (added_message ("/ipfs/" ++ Example.wrapped_cid)) (stdout sA') /\
    DownloadFromCid Example.lib (Example.env [Example.wrapped])
                    ("/ipfs/" ++ Example.wrapped_cid)
                    (Example.start Example.root [])
    = Ret ("./Download/" ++ Example.wrapped_cid, None, 100%Z) sB' /\
    fs_lookup (fs_root sB')
              (resolve (Example.env [Example.wrapped]) "Download"
                 ++ [Example.wrapped_cid])%list
    = Some Example.wrapped /\
    (IsDir (File (Example.bytes "hello")) = true ->
     Example.wrapped = serial_tree false (File (Example.bytes "hello"))) /\
    (IsDir (File (Example.bytes "hello")) = true ->
     no_hidden (File (Example.bytes "hello")) = true ->
     Example.wrapped = File (Example.bytes "hello")) /\
    (IsDir (File (Example.bytes "hello")) = false ->
     Example.wrapped
     = Dir [(Filepath.Base "a.txt", File (Example.bytes "hello"))]).
Proof.
  apply (publish_then_fetch
           Example.lib (Example.env []) (Example.env [Example.wrapped])
           "a.txt" (Example.start Example.root [])
           (Example.start Example.root [])
           (File (Example.bytes "hello"))).
  - unfold upload_clean, startup_clean. vm_compute.
    repeat split; discriminate.
  - reflexivity.
  - reflexivity.
  - reflexivity.
  - reflexivity.
  - reflexivity.
  - vm_compute. repeat split; discriminate.
  - reflexivity.
  - unfold startup_clean. vm_compute. repeat split.
  - reflexivity.
  - reflexivity.
  - reflexivity.
  - reflexivity.
  - vm_compute. now left.
  - intros m [<-|[]] _. reflexivity.
  - vm_compute. discriminate.
  - reflexivity.
Defined.

(** The claim C1 fails as an equation between the input and the output:
    the file [a.txt] comes back as a directory that holds it, and the
    directory [docs] comes back without its hidden entry. *)
Lemma fetched_tree_differs_from_input :
  fs_lookup Example.root ["home"; "u"; "a.txt"]
  = Some (File (Example.bytes "hello")) /\
  In (added_message ("/ipfs/" ++ Example.wrapped_cid))
     (stdout Example.publisher) /\
  fs_lookup
    (fs_root
       (final_state
          (DownloadFromCid Example.lib
                           (Example.env (local_dags Example.publisher))
                           ("/ipfs/" ++ Example.wrapped_cid)
                           (Example.start Example.root []))))
    ["home"; "u"; "Download"; Example.wrapped_cid]
  = Some (Dir [("a.txt", File (Example.bytes "hello"))]) /\
  fs_lookup Example.root ["home"; "u"; "docs"]
  = Some (Dir [("b.txt", File (Example.bytes "bee"));
               (".secret", File (Example.bytes "key"))]) /\
  In (added_message ("/ipfs/" ++ Example.docs_cid))
     (stdout Example.docs_publisher) /\
  fs_lookup
    (fs_root
       (final_state
          (DownloadFromCid Example.lib
                           (Example.env (local_dags Example.docs_publisher))
                           ("/ipfs/" ++ Example.docs_cid)
                           (Example.start Example.root []))))
    ["home"; "u"; "Download"; Example.docs_cid]
  = Some (Dir [("b.txt", File (Example.bytes "bee"))]).
Proof. vm_compute. intuition. Qed.

(** ** The CID is a function of the input *)



(** ** A CID nobody provides *)

(** C3, as the code has it.  [DownloadFromCid] takes no deadline and the
    context it starts the node with has none.  For a CID string that parses
    and that nobody provides, it does not return: it waits for providers
    without end when no call fails, and panics when the start-up or [Get]
    fails.  No error is returned in either case. *)
Theorem fetch_without_providers :
  forall L E cidStr s c cid,
    GetCidStrFromString cidStr = Some c ->
    cid_Decode L c = Some cid ->
    find_dag L cid (local_dags s ++ remote_dags E) = None ->
    ((startup_clean E s /\ faults E UnixfsGet = None /\
      exists s', DownloadFromCid L E cidStr s = Blocked s') \/
     (~ (startup_clean E s /\ faults E UnixfsGet = None) /\
      exists e s', DownloadFromCid L E cidStr s = Panic e s')) /\
    (forall s0 s1 ctx api cancel err,
        StartIpfsNode E s0 = Ret (ctx, api, cancel, err) s1 ->
        ctx_deadline ctx = None).
Proof.
  intros L E c0 s c cid Hc Hp Hf. split.
  - destruct (DownloadFromCid_result L E c0 s)
      as [e s' Hh _ _|s' Hh _ _|c' nd' r1' r2' s' W' _ _ _ _ _].
    + right. split; [|eauto].
      intros (Hs & Hg). apply Hh. exists c, cid. unfold fetch_ready. tauto.
    + left. destruct Hh as (c' & cid' & (Hs & _ & _ & Hg) & _). eauto.
    + destruct W' as ((cid' & (_ & Hc' & Hp' & _) & Hf') & _).
      assert (c' = c) by congruence. subst c'. congruence.
  - intros s0 s1 ctx api cancel err. apply start_context.
Qed.

Lemma fetch_without_providers_witness :
  ((startup_clean (Example.env []) (Example.start Example.root []) /\
    faults (Example.env []) UnixfsGet = None /\
    exists s',
      DownloadFromCid Example.lib (Example.env [])
                      ("/ipfs/" ++ Example.wrapped_cid)
                      (Example.start Example.root []) = Blocked s') \/
   (~ (startup_clean (Example.env []) (Example.start Example.root []) /\
       faults (Example.env []) UnixfsGet = None) /\
    exists e s',
      DownloadFromCid Example.lib (Example.env [])
                      ("/ipfs/" ++ Example.wrapped_cid)
                      (Example.start Example.root []) = Panic e s')) /\
  (forall s0 s1 ctx api cancel err,
      StartIpfsNode (Example.env []) s0 = Ret (ctx, api, cancel, err) s1 ->
      ctx_deadline ctx = None).
Proof.
  apply (fetch_without_providers
           Example.lib (Example.env []) ("/ipfs/" ++ Example.wrapped_cid)
           (Example.start Example.root []) Example.wrapped_cid
           (dag_cid Example.lib Example.wrapped)); reflexivity.
Defined.

(** The claim C3 fails: the CID string parses, no peer provides it, and the
    call neither returns an error nor ends. *)
Lemma fetch_without_providers_never_returns :
  cid_Decode Example.lib Example.wrapped_cid
  = Some (dag_cid Example.lib Example.wrapped) /\
  remote_dags (Example.env []) = [] /\
  process_end (DownloadFromCid Example.lib (Example.env [])
                               ("/ipfs/" ++ Example.wrapped_cid)
                               (Example.start Example.root []))
  = StillRunning.
Proof. vm_compute. repeat split. Qed.

(** ** Stripping the CID string *)

(** C4.  For every string [s], [GetCidStrFromString s] returns (it never
    slices out of bounds, the empty string included) the part [suffix] of
    [s] after its last ['/'] (all of [s] when it has none) without its
    leading run [l] and trailing run [t] of spaces, carriage returns and
    newlines; for ["/ipfs/<cid>"] that is ["<cid>"]; and [DownloadFromCid]
    parses this stripped string: it panics when the string does not parse,
    and when it returns, the string has parsed and names the output. *)
Theorem GetCidStrFromString_strips :
  forall s : string,
    exists suffix l r t,
      GetCidStrFromString s = Some r /\
      ((no_slash s = true /\ suffix = s) \/
       (exists pre, s = pre ++ String "/" suffix)) /\
      no_slash suffix = true /\
      suffix = l ++ r ++ t /\
      all_in cid_cutset l = true /\ all_in cid_cutset t = true /\
      starts_clean cid_cutset r /\ ends_clean cid_cutset r /\
      (forall cid,
          no_slash cid = true ->
          starts_clean cid_cutset cid -> ends_clean cid_cutset cid ->
          GetCidStrFromString ("/ipfs/" ++ cid) = Some cid) /\
      (forall L E st,
          (cid_Decode L r = None ->
           exists e st', DownloadFromCid L E s st = Panic e st') /\
          (forall out err pr st',
              DownloadFromCid L E s st = Ret (out, err, pr) st' ->
              exists cid,
                cid_Decode L r = Some cid /\ out = "./Download/" ++ r /\
                In (fetching_line r) (stdout st'))).
Proof.
  intros s.
  destruct (GetCidStrFromString_total s)
    as (suffix & l & r & t & Hr & Hs & Hn & Hd & Hl & Ht & Hb & He).
  exists suffix, l, r, t. splits; auto.
  - exact GetCidStrFromString_ipfs.
  - intros L E st. split.
    + intros Hnone. apply download_panics.
      * intros (c & cid & (_ & Hc & Hp & _) & _). congruence.
      * intros c nd r1 r2 ((cid & (_ & Hc & Hp & _) & _) & _). congruence.
    + intros out err pr st' H.
      destruct (download_Ret_inv _ _ _ _ _ _ _ _ H)
        as (c & nd & r1 & r2 & W & -> & _ & _ & _ & _ & Ho & _).
      destruct W as ((cid & (_ & Hc & Hp & _) & _) & _).
      assert (c = r) by congruence. subst c.
      exists cid. splits; auto.
      rewrite Ho. apply in_or_app; right. apply in_or_app; right. now left.
Qed.

(** ** Where the fetched tree goes *)

(** C5.  When [DownloadFromCid] returns, the path it returns is
    ["./Download/<c>"] for the stripped CID string [c] (with a nil error
    and progress 100), the directory [Download] exists in the working
    directory, the fetched tree is the entry [c] of that directory, and
    the path has been printed. *)
Theorem DownloadFromCid_output_path :
  forall L E cidStr s outputPath err progress s',
    DownloadFromCid L E cidStr s = Ret (outputPath, err, progress) s' ->
    exists c cid nd,
      GetCidStrFromString cidStr = Some c /\
      cid_Decode L c = Some cid /\
      find_dag L cid (local_dags s ++ remote_dags E) = Some nd /\
      proper_name c /\
      outputPath = "./Download/" ++ c /\
      err = None /\ progress = 100%Z /\
      (exists es,
          fs_lookup (fs_root s') (resolve E "Download") = Some (Dir es)) /\
      fs_lookup (fs_root s') (resolve E "Download" ++ [c])%list = Some nd /\
      In (wrote_line c) (stdout s').
Proof.
  intros L E cidStr s outputPath err progress s' H.
  destruct (download_output _ _ _ _ _ _ _ _ H)
    as (c & cid & nd & Hc & Hp & Hf & Hn & Ho & Hd & Hl).
  destruct (download_Ret_inv _ _ _ _ _ _ _ _ H)
    as (c' & nd' & r1 & r2 & W & Ho' & He & Hpr & _ & _ & Hout & _).
  assert (c' = c).
  { destruct W as ((cid' & (_ & Hc' & _) & _) & _). congruence. }
  subst c'. exists c, cid, nd. splits; auto.
  rewrite Hout. apply in_or_app; right. apply in_or_app; right.
  right. apply in_or_app; right. now left.
Qed.

Lemma DownloadFromCid_output_path_witness :
  exists c cid nd,
    GetCidStrFromString ("/ipfs/" ++ Example.wrapped_cid) = Some c /\
    cid_Decode Example.lib c = Some cid /\
    find_dag Example.lib cid
             (local_dags (Example.start Example.root [])
                ++ remote_dags (Example.env [Example.wrapped])) = Some nd /\
    proper_name c /\
    "./Download/" ++ Example.wrapped_cid = "./Download/" ++ c /\
    @None string = None /\ 100%Z = 100%Z /\
    (exists es,
        fs_lookup (fs_root Example.fetched)
                  (resolve (Example.env [Example.wrapped]) "Download")
        = Some (Dir es)) /\
    fs_lookup (fs_root Example.fetched)
              (resolve (Example.env [Example.wrapped]) "Download" ++ [c])%list
    = Some nd /\
    In (wrote_line c) (stdout Example.fetched).
Proof.
  apply (DownloadFromCid_output_path
           Example.lib (Example.env [Example.wrapped])
           ("/ipfs/" ++ Example.wrapped_cid) (Example.start Example.root [])
           ("./Download/" ++ Example.wrapped_cid) None 100%Z Example.fetched).
  vm_compute. reflexivity.
Defined.

(** ** Waiting for the signal *)

(** C6.  [UploadFiles] returns only on a SIGINT or SIGTERM, after it has
    added the input and printed the CID; as long as no signal arrives it
    waits, its node running and providing the DAG; on SIGINT or SIGTERM it
    returns, and publish mode then exits with status 0, which it does in no
    other way. *)
Theorem publish_waits_for_signal :
  forall L E flagFilePath s,
    (* it returns only on one of the two signals *)
    (forall r s',
        UploadFiles L E flagFilePath s = Ret r s' ->
        exists n g rest,
          fs_lookup (fs_root s) (resolve E flagFilePath) = Some n /\
          signals s = g :: rest /\ (g = SIGINT \/ g = SIGTERM) /\
          r = (cid_text L (upload_node flagFilePath n), None) /\
          In (added_message (cid_text L (upload_node flagFilePath n)))
             (stdout s')) /\
    (* without a signal it waits and serves *)
    (upload_clean E flagFilePath s -> signals s = [] ->
     exists n s',
       fs_lookup (fs_root s) (resolve E flagFilePath) = Some n /\
       UploadFiles L E flagFilePath s = Blocked s' /\
       In (added_message (cid_text L (upload_node flagFilePath n)))
          (stdout s') /\
       In (upload_node flagFilePath n) (local_dags s') /\
       running s' <> []) /\
    (* with the signal it returns, the node stopped *)
    (upload_clean E flagFilePath s ->
     forall g rest,
       signals s = g :: rest -> g = SIGINT \/ g = SIGTERM ->
       exists n s',
         fs_lookup (fs_root s) (resolve E flagFilePath) = Some n /\
         UploadFiles L E flagFilePath s
         = Ret (cid_text L (upload_node flagFilePath n), None) s' /\
         running s' = [] /\ local_dags s' = []) /\
    (* publish mode exits with status 0 exactly when UploadFiles returns *)
    (flagFilePath <> "" ->
     (process_end (main L E flagFilePath "" s) = Exited 0 <->
      exists r s', UploadFiles L E flagFilePath s = Ret r s') /\
     (signals s = [] ->
      process_end (main L E flagFilePath "" s) <> Exited 0)).
Proof.
  intros L E f s. splits.
  - intros [r err] s' H.
    destruct (upload_Ret_inv _ _ _ _ _ _ _ H)
      as (n & g & rest & _ & Hl & Hs & Hg & -> & -> & Hp & _).
    exists n, g, rest. splits; auto.
    exact (proj1 (published_serving _ _ _ _ _ _ _ Hp)).
  - intros Hc Hs.
    destruct (upload_waits L E f s Hc Hs) as (n & s' & Hl & Hu & Hp & Hr).
    exists n, s'. destruct (published_serving _ _ _ _ _ _ _ Hp) as [Ha Hd].
    splits; auto. rewrite Hd. now left.
  - intros Hc g rest Hs Hg.
    destruct (upload_returns L E f s g rest Hc Hs Hg)
      as (n & s' & Hl & Hu & Hp & Hr).
    exists n, s'. splits; auto.
    exact (proj2 (published_serving _ _ _ _ _ _ _ Hp)).
  - intros Hf. apply String.eqb_neq in Hf.
    assert (Hm : process_end (main L E f "" s)
                 = process_end (UploadFiles L E f s)).
    { unfold main. cbn [String.eqb negb orb]. rewrite Hf. cbn [negb].
      apply bind_ret_final. }
    rewrite Hm. split.
    + split.
      * destruct (UploadFiles L E f s); cbn; try discriminate; eauto.
      * intros (r & s' & ->). reflexivity.
    + intros Hs He.
      destruct (UploadFiles L E f s) as [[r err] s'| | |] eqn:Hu;
        try discriminate.
      destruct (upload_Ret_inv _ _ _ _ _ _ _ Hu)
        as (n & g & rest & _ & _ & Hs' & _). congruence.
Qed.

(** ** Errors end in a panic *)

(** C7.  [UploadFiles] and [DownloadFromCid] never return an error: when
    either returns, its [err] is nil, and every failure of a call they make
    (start-up of the node, stat and read of the input, [Add], [Ls], [Size];
    parse of the CID, [Get], [Ls], [MkdirAll], [WriteTo]) ends in a panic,
    with which the process exits with status 2. *)
Theorem errors_panic :
  forall L E,
    (forall p s r err s', UploadFiles L E p s = Ret (r, err) s' -> err = None) /\
    (forall c s out err pr s',
        DownloadFromCid L E c s = Ret (out, err, pr) s' -> err = None) /\
    (* any failure on the way of UploadFiles *)
    (forall p s,
        ~ upload_clean E p s ->
        process_end (UploadFiles L E p s) = Exited 2) /\
    (forall p s call,
        In call [OsMkdirTemp; ConfigInit; FsrepoInit; FsrepoOpen;
                 CoreNewNode; NewCoreAPI;
                 OsStat; NewSerialFile; UnixfsAdd; UnixfsLs; NodeSize] ->
        faults E call <> None ->
        process_end (UploadFiles L E p s) = Exited 2) /\
    (forall p s,
        fs_lookup (fs_root s) (resolve E p) = None ->
        process_end (UploadFiles L E p s) = Exited 2) /\
    (* the plugins are set up on the first start of a node *)
    (forall s call,
        loadPluginsOnce s = false ->
        In call [NewPluginLoader; PluginsInitialize; PluginsInject] ->
        faults E call <> None ->
        (forall p, process_end (UploadFiles L E p s) = Exited 2) /\
        (forall c, process_end (DownloadFromCid L E c s) = Exited 2)) /\
    (* any failure on the way of DownloadFromCid *)
    (forall c s,
        ~ fetch_hangs L E c s ->
        (forall c' nd r1 r2, ~ fetch_writes L E c s c' nd r1 r2) ->
        process_end (DownloadFromCid L E c s) = Exited 2) /\
    (forall c s call,
        In call [OsMkdirTemp; ConfigInit; FsrepoInit; FsrepoOpen;
                 CoreNewNode; NewCoreAPI; UnixfsGet] ->
        faults E call <> None ->
        process_end (DownloadFromCid L E c s) = Exited 2) /\
    (forall c s r,
        GetCidStrFromString c = Some r -> cid_Decode L r = None ->
        process_end (DownloadFromCid L E c s) = Exited 2) /\
    (forall c s r cid nd,
        GetCidStrFromString c = Some r -> cid_Decode L r = Some cid ->
        find_dag L cid (local_dags s ++ remote_dags E) = Some nd ->
        faults E UnixfsLs <> None \/ faults E OsMkdirAll <> None \/
        faults E FilesWriteTo <> None \/
        fs_mkdir_all (resolve E "Download") (fs_root s) = None \/
        (exists r1,
            fs_mkdir_all (resolve E "Download") (fs_root s) = Some r1 /\
            fs_lookup r1 (resolve E (Filepath.Clean ("./Download/" ++ r)))
            <> None) \/
        writable nd = false ->
        process_end (DownloadFromCid L E c s) = Exited 2).
Proof.
  intros L E. splits.
  - intros p s r err s' H.
    destruct (upload_Ret_inv _ _ _ _ _ _ _ H) as (n & g & rest & H'). tauto.
  - intros c s out err pr s' H.
    destruct (download_Ret_inv _ _ _ _ _ _ _ _ H) as (? & ? & ? & ? & H').
    tauto.
  - intros p s Hn. apply process_end_Panic. now apply upload_panics.
  - intros p s call Hin Hf. apply process_end_Panic, upload_panics.
    intros ((_ & ? & ? & ? & ? & ? & ?) & ? & ? & ? & ? & ? & _).
    cbn [In] in Hin.
    repeat (destruct Hin as [<-|Hin]; [congruence|]). exact Hin.
  - intros p s Hl. apply process_end_Panic, upload_panics.
    intros (_ & _ & _ & _ & _ & _ & _ & H). contradiction.
  - intros s call Ho Hin Hf. cbn [In] in Hin. split.
    + intros p. apply process_end_Panic, upload_panics.
      intros ((Hpl & _) & _). destruct (Hpl Ho) as (? & ? & ?).
      repeat (destruct Hin as [<-|Hin]; [congruence|]). exact Hin.
    + intros c. apply process_end_Panic, download_panics.
      * intros (c' & cid' & ((Hpl & _) & _) & _).
        destruct (Hpl Ho) as (? & ? & ?).
        repeat (destruct Hin as [<-|Hin]; [congruence|]). exact Hin.
      * intros c' nd r1 r2 ((cid' & ((Hpl & _) & _) & _) & _).
        destruct (Hpl Ho) as (? & ? & ?).
        repeat (destruct Hin as [<-|Hin]; [congruence|]). exact Hin.
  - intros c s Hh Hw. apply process_end_Panic. now apply download_panics.
  - intros c s call Hin Hf. apply process_end_Panic, download_panics.
    + intros (c' & cid' & ((_ & ? & ? & ? & ? & ? & ?) & _ & _ & ?) & _).
      cbn [In] in Hin.
      repeat (destruct Hin as [<-|Hin]; [congruence|]). exact Hin.
    + intros c' nd r1 r2
             ((cid' & ((_ & ? & ? & ? & ? & ? & ?) & _ & _ & ?) & _) & _).
      cbn [In] in Hin.
      repeat (destruct Hin as [<-|Hin]; [congruence|]). exact Hin.
  - intros c s r Hc Hp. apply process_end_Panic, download_panics.
    + intros (c' & cid' & (_ & ? & ? & _) & _). congruence.
    + intros c' nd r1 r2 ((cid' & (_ & ? & ? & _) & _) & _). congruence.
  - intros c s r cid nd Hc Hp Hf Hbad.
    apply process_end_Panic, download_panics.
    + intros (c' & cid' & (_ & ? & ? & _) & ?). congruence.
    + intros c' nd' r1 r2
             ((cid' & (_ & ? & ? & _) & ?) & ? & ? & ? & ? & ? & ? & _).
      assert (c' = r) by congruence. subst c'.
      assert (cid' = cid) by congruence. subst cid'.
      assert (nd' = nd) by congruence. subst nd'.
      destruct Hbad as [?|[?|[?|[?|[(r1' & ? & ?)|?]]]]]; congruence.
Qed.

(** ** The two modes *)

(** C8.  [main] runs at most one of the two operations: [DownloadFromCid]
    when [-c] is not empty (whatever [-f] is), [UploadFiles] when [-c] is
    empty and [-f] is not, and neither when both are empty, in which case
    it prints the usage text and returns.  A publish that gets to its wait
    has printed the root CID. *)
Theorem main_modes :
  forall L E flagFilePath flagCid s,
    calls (final_state (main L E flagFilePath flagCid s))
    = (calls s ++
         (if negb (String.eqb flagCid "") then [OpDownload flagCid]
          else if negb (String.eqb flagFilePath "") then [OpUpload flagFilePath]
               else []))%list /\
    (flagCid = "" -> flagFilePath = "" ->
     main L E flagFilePath flagCid s
     = Ret tt (set_stdout (stdout s ++ [usage ++ nl]) s)) /\
    (flagCid = "" ->
     forall s',
       main L E flagFilePath flagCid s = Ret tt s' \/
       main L E flagFilePath flagCid s = Blocked s' ->
       flagFilePath <> "" ->
       exists n,
         fs_lookup (fs_root s) (resolve E flagFilePath) = Some n /\
         In (added_message (cid_text L (upload_node flagFilePath n)))
            (stdout s')).
Proof.
  intros L E f c s. unfold main. splits.
  - destruct (String.eqb c "") eqn:Ec; cbn [negb orb].
    + destruct (String.eqb f "") eqn:Ef; cbn [negb].
      * cbn. now rewrite app_nil_r.
      * destruct (bind_ret_final (UploadFiles L E f) s) as [-> _].
        apply upload_calls.
    + destruct (bind_ret_final (DownloadFromCid L E c) s) as [-> _].
      apply download_calls.
  - intros -> ->. reflexivity.
  - intros -> s' H Hf. apply String.eqb_neq in Hf.
    cbn [String.eqb negb orb] in H. rewrite Hf in H. cbn [negb] in H.
    unfold bind, ret in H.
    destruct (UploadFiles L E f s) as [[r err] s1|e s1|s1|g s1] eqn:Hu;
      destruct H as [H|H]; try discriminate.
    + injection H as <-.
      destruct (upload_Ret_inv _ _ _ _ _ _ _ Hu)
        as (n & g & rest & _ & Hl & _ & _ & _ & _ & Hp & _).
      destruct (published_added _ _ _ _ _ _ _ Hp) as [tl Ho].
      exists n. split; auto. rewrite Ho.
      apply in_or_app; right. apply in_or_app; right. now left.
    + injection H as <-.
      destruct (upload_Blocked_inv _ _ _ _ _ Hu) as (n & _ & Hl & _ & Hp & _).
      destruct (published_added _ _ _ _ _ _ _ Hp) as [tl Ho].
      exists n. split; auto. rewrite Ho.
      apply in_or_app; right. apply in_or_app; right. now left.
Qed.

(** ** The plugins are set up once *)

(** C9, as the code has it.  [SetupPlugins] runs at most once in a
    process, however often [SpawnEphemeral] is invoked: the first
    invocation runs it and returns its error, if it has one; every later
    invocation finds the [sync.Once] done and skips it. *)
Theorem plugins_set_up_once :
  forall E ctx,
    (forall n s,
        setup_runs (spawn_many E ctx n s)
        = (setup_runs s
           + (if loadPluginsOnce s then 0
              else match n with O => 0 | S _ => 1 end))%nat) /\
    (forall n s, n <> O -> loadPluginsOnce (spawn_many E ctx n s) = true) /\
    (forall s,
        loadPluginsOnce s = true ->
        exists r s',
          SpawnEphemeral E ctx s = Ret r s' /\
          setup_runs s' = setup_runs s /\ loadPluginsOnce s' = true) /\
    (forall s e s1,
        loadPluginsOnce s = false ->
        SetupPlugins E "" (set_loadPluginsOnce true s) = Ret (Some e) s1 ->
        SpawnEphemeral E ctx s = Ret (None, None, Some e) s1).
Proof.
  intros E ctx. splits.
  - intros n s. apply spawn_many_runs.
  - intros n s. apply spawn_many_runs.
  - intros s Hd. pose proof (SpawnEphemeral_post E ctx s) as P.
    destruct (SpawnEphemeral E ctx s) as [r s'| | |]; cbn [spawn_post] in P;
      try contradiction.
    rewrite Hd in P. exists r, s'. tauto.
  - intros s e s1 Hd Hs. unfold SpawnEphemeral, sync_Once_Do. sim.
    rewrite Hd, Hs. reflexivity.
Qed.

(** The claim C9 fails in its last part: the first invocation returns the
    error of [SetupPlugins], the second one returns no error, and the
    set-up has run once. *)
Lemma later_spawn_forgets_error :
  spawn_errors Example.env_no_plugins context_Background 2
               (Example.start Example.root [])
  = [Some "error loading plugins: plugin directory unreadable"; None] /\
  setup_runs (spawn_many Example.env_no_plugins context_Background 2
                         (Example.start Example.root [])) = 1%nat.
Proof. vm_compute. split; reflexivity. Qed.

(** ** The single file in a directory *)




(* ================================================================== *)
(** * Further properties of the program *)

(* ------------------------------------------------------------------ *)
(** ** Lemmas *)

Lemma HasPrefix_app (p x : string) : GoStrings.HasPrefix (p ++ x) p = true.
Proof.
  induction p as [|c p IH]; cbn [GoStrings.HasPrefix String.append];
    [now destruct x|].
  now rewrite Ascii.eqb_refl, IH.
Qed.

Lemma strip_again (r : string) :
  no_slash r = true -> starts_clean cid_cutset r -> ends_clean cid_cutset r ->
  GetCidStrFromString r = Some r.
Proof.
  intros Hn Hb He. rewrite (GetCidStrFromString_noslash r Hn).
  now rewrite Trim_id.
Qed.

Lemma nth_names_lines (c : list string) :
  forall n k name,
    nth_error c k = Some name ->
    nth_error (names_lines c n) k = Some (name_line (S (n + k)) name).
Proof.
  induction c as [|x c IH]; intros n k name H; destruct k as [|k];
    cbn [nth_error names_lines] in *; try discriminate.
  - injection H as ->. now rewrite Nat.add_0_r.
  - rewrite (IH (S n) k name H). now rewrite Nat.add_succ_r.
Qed.

Lemma length_names_lines (c : list string) :
  forall n, List.length (names_lines c n) = List.length c.
Proof.
  induction c as [|x c IH]; intros n; cbn; [reflexivity | now rewrite IH].
Qed.

(** The start-up sequence, call by call. *)
Lemma StartIpfsNode_outcome (E : Env) (s : State) :
  start_outcome E s (StartIpfsNode E s).
Proof.
  unfold start_outcome, calls_of_start, start_calls.
  unfold StartIpfsNode, SpawnEphemeral, sync_Once_Do, SetupPlugins,
    CreateTempRepo, CreateNode, loader_NewPluginLoader,
    PluginLoader_Initialize, PluginLoader_Inject, os_MkdirTemp, config_Init,
    fsrepo_Init, fsrepo_Open, core_NewNode, coreapi_NewCoreAPI,
    context_WithCancel.
  sim.
  destruct (loadPluginsOnce s) eqn:Ho; cbn [skipn first_fault]; sim.
  all: repeat (match goal with
          | |- context [faults ?E0 ?c] =>
              destruct (faults E0 c) eqn:?; sim; cbn [spawn_wrap]
          | |- context [flagExp ?E0] => destruct (flagExp E0) eqn:?; sim
          end).
  all: rewrite ?find_repo_head; sim.
  all: unfold start_lines; rewrite <- ?app_assoc; cbn [firstn app].
  all: unfold same_world.
  all: try (eexists; splits; reflexivity).
  all: try (eexists; eexists; splits; try reflexivity; discriminate).
Qed.

Lemma StartIpfsNode_fails (E : Env) (s : State) (c : LibCall) (e : string) :
  first_fault E (calls_of_start s) = Some (c, e) ->
  exists s',
    StartIpfsNode E s
    = Panic ("failed to spawn ephemeral node: " ++ spawn_wrap c ++ e) s' /\
    same_world s s' /\
    stdout s' = (stdout s ++ firstn 2 start_lines)%list.
Proof.
  intros H. pose proof (StartIpfsNode_outcome E s) as Hs.
  unfold start_outcome in Hs. now rewrite H in Hs.
Qed.

Lemma StartIpfsNode_runs (E : Env) (s : State) :
  first_fault E (calls_of_start s) = None ->
  exists api s',
    StartIpfsNode E s
    = Ret (context_Background, Some api, cancel_nodes, None) s' /\
    same_world s s' /\
    stdout s' = (stdout s ++ start_lines)%list /\
    running s' <> [].
Proof.
  intros H. pose proof (StartIpfsNode_outcome E s) as Hs.
  unfold start_outcome in Hs. now rewrite H in Hs.
Qed.

(** The facts of a case, used as far as they go. *)
Ltac use_facts :=
  repeat (progress (
    repeat match goal with
    | H : faults _ _ = _ |- _ => rewrite H
    | H : fs_lookup _ _ = _ |- _ => rewrite H
    | H : fs_root _ = fs_root _ |- _ => rewrite H
    | H : local_dags _ = local_dags _ |- _ => rewrite H
    | H : signals _ = _ |- _ => rewrite H
    | H : String.eqb _ _ = _ |- _ => rewrite H
    | H : find_dag _ _ _ = _ |- _ => rewrite H
    | H : fs_mkdir_all _ _ = _ |- _ => rewrite H
    | H : fs_create _ _ _ = _ |- _ => rewrite H
    | H : writable _ = _ |- _ => rewrite H
    | H : cid_Decode _ _ = _ |- _ => rewrite H
    | H : GetCidStrFromString _ = _ |- _ => rewrite H
    | H : IsDir _ = _ |- _ => rewrite H
    end; sim_lib)).

(** [UploadFiles] and [DownloadFromCid] once their node has started. *)
Ltac upload_started H :=
  unfold UploadFiles, enter; sim;
  match goal with
  | |- context [StartIpfsNode ?E ?s0] =>
      destruct (StartIpfsNode_runs E s0 H)
        as (?a & ?s1 & -> & (?Hfs & ?Hdags & ?Hcalls & ?Hsig & ?Hnot & ?Hspin)
            & ?Hout & ?Hrun)
  end;
  sim;
  unfold GetUnixfsNode, os_Stat, files_NewSerialFile, FileInfo_IsDir,
    unixfs_Add, unixfs_Ls, await_dag, Node_Size, go_, signal_Notify,
    recv_signal, cancel_nodes, files_NewSliceDirectory, ImmutablePath_String,
    Context_Done;
  sim_lib.

Ltac download_started H :=
  unfold DownloadFromCid, enter; sim;
  match goal with
  | |- context [StartIpfsNode ?E ?s0] =>
      destruct (StartIpfsNode_runs E s0 H)
        as (?a & ?s1 & -> & (?Hfs & ?Hdags & ?Hcalls & ?Hsig & ?Hnot & ?Hspin)
            & ?Hout & ?Hrun)
  end;
  sim;
  unfold unixfs_Get, unixfs_Ls, await_dag, cid_Parse, os_MkdirAll,
    files_WriteTo, cancel_nodes, Context_Done;
  sim_lib.

(** Hidden entries are skipped at every depth. *)
Lemma no_hidden_serial (n : Node) : no_hidden (serial_tree false n) = true.
Proof.
  induction n as [d|es IH] using Node_ind2; [reflexivity|].
  change (serial_tree false (Dir es)) with (Dir (serial_entries false es)).
  change (no_hidden (Dir (serial_entries false es)))
    with (no_hidden_entries (serial_entries false es)).
  induction es as [|[name ch] es IHes]; [reflexivity|].
  inversion IH as [|? ? Hch Hes]; subst. cbn [snd] in Hch.
  cbn [serial_entries orb].
  destruct (isHidden name) eqn:Hh; cbn [negb].
  - now apply IHes.
  - cbn [no_hidden_entries]. rewrite Hh, Hch. cbn [negb andb]. now apply IHes.
Qed.

Lemma serial_entries_names (es : list (string * Node)) :
  map fst (serial_entries false es) = visible_names es.
Proof.
  unfold visible_names.
  induction es as [|[name ch] es IH]; [reflexivity|].
  cbn [serial_entries orb filter fst].
  destruct (isHidden name); cbn [negb map fst]; now rewrite IH.
Qed.

Lemma upload_killed (L : Lib) (E : Env) (p : string) (s : State)
      (g : Signal) (rest : list Signal) :
  upload_clean E p s -> signals s = g :: rest ->
  g <> SIGINT -> g <> SIGTERM ->
  exists n s',
    fs_lookup (fs_root s) (resolve E p) = Some n /\
    UploadFiles L E p s = Killed g s' /\
    published L p n s s' [] (upload_node p n :: local_dags s) /\
    signals s' = rest.
Proof.
  intros Hc Hs H1 H2. pose proof (UploadFiles_result L E p s) as R.
  destruct R as [| |n g' rest' s' _ Hl Hs' _ _ Hp Hr
                 |n g' rest' s' _ Hl Hs' Hg _ _ _];
    try contradiction; try congruence.
  - assert (g' = g) by congruence. assert (rest' = rest) by congruence.
    subst. exists n, s'. auto.
  - assert (g' = g) by congruence. subst. destruct Hg; contradiction.
Qed.

(** What [published] says of the output, line by line. *)
Lemma published_lines (L : Lib) (p : string) (n : Node) (s s' : State)
      (dags : list Node) :
  published L p n s s' [] dags ->
  exists last,
    stdout s'
    = (stdout s ++ start_lines
         ++ added_message (cid_text L (upload_node p n))
         :: names_lines (ls_names L (upload_node p n)) 0 ++ [last])%list /\
    GoStrings.HasPrefix last "Seeding size: " = true.
Proof.
  intros (_ & _ & Ho & _). exists (size_line L (upload_node p n)). split.
  - rewrite Ho. unfold seeding_lines. now rewrite app_nil_r.
  - apply HasPrefix_app.
Qed.

Lemma resolve_cwd (E E2 : Env) (p : string) :
  cwd E2 = cwd E -> resolve E2 p = resolve E p.
Proof. intros H. unfold resolve. now rewrite H. Qed.

(** [MkdirAll] and [WriteTo] leave the regular files that exist alone. *)

Lemma assoc_set_entry_other (k c : string) (v : Node)
      (es : list (string * Node)) :
  String.eqb c k = false -> assoc k (set_entry c v es) = assoc k es.
Proof.
  intros Hk. induction es as [|[x v0] es IH]; cbn [set_entry assoc];
    [reflexivity|].
  destruct (String.eqb x c) eqn:Exc; cbn [assoc].
  - apply String.eqb_eq in Exc. subst x. now rewrite Hk.
  - now rewrite IH.
Qed.

Lemma assoc_app_found (k : string) (v : Node) (es tl : list (string * Node)) :
  assoc k es = Some v -> assoc k (es ++ tl) = Some v.
Proof.
  induction es as [|[x v0] es IH]; cbn [assoc app]; [discriminate|].
  destruct (String.eqb x k); auto.
Qed.

Lemma fs_mkdir_all_keeps_files (p : list string) :
  forall r r1 q d,
    fs_mkdir_all p r = Some r1 ->
    fs_lookup r q = Some (File d) -> fs_lookup r1 q = Some (File d).
Proof.
  induction p as [|c p IH]; intros r r1 q d H Hq; destruct r as [d0|es];
    cbn [fs_mkdir_all] in H; try discriminate.
  - now injection H as <-.
  - destruct q as [|k q]; [discriminate|]. cbn [fs_lookup] in Hq.
    destruct (assoc k es) as [ch0|] eqn:Ek; [|discriminate].
    destruct (assoc c es) as [ch|] eqn:Ea.
    + destruct (fs_mkdir_all p ch) as [ch'|] eqn:Em; [|discriminate].
      injection H as <-. cbn [fs_lookup].
      destruct (String.eqb c k) eqn:Eck.
      * apply String.eqb_eq in Eck. subst k.
        rewrite assoc_set_entry_same by congruence.
        assert (ch0 = ch) by congruence. subst ch0. eauto.
      * rewrite (assoc_set_entry_other _ _ _ _ Eck), Ek. exact Hq.
    + destruct (fs_mkdir_all p (Dir [])) as [ch'|] eqn:Em; [|discriminate].
      injection H as <-. cbn [fs_lookup].
      rewrite (assoc_app_found _ _ _ _ Ek). exact Hq.
Qed.

Lemma fs_create_keeps_files (p : list string) (nd : Node) :
  forall r r2 q d,
    fs_create p nd r = Some r2 ->
    fs_lookup r q = Some (File d) -> fs_lookup r2 q = Some (File d).
Proof.
  induction p as [|c p IH]; intros r r2 q d H Hq; cbn [fs_create] in H;
    [discriminate|].
  destruct r as [d0|es]; [discriminate|].
  destruct q as [|k q]; [discriminate|]. cbn [fs_lookup] in Hq.
  destruct (assoc k es) as [ch0|] eqn:Ek; [|discriminate].
  destruct (assoc c es) as [ch|] eqn:Ea.
  - destruct (fs_create p nd ch) as [ch'|] eqn:Em; [|discriminate].
    injection H as <-. cbn [fs_lookup].
    destruct (String.eqb c k) eqn:Eck.
    + apply String.eqb_eq in Eck. subst k.
      rewrite assoc_set_entry_same by congruence.
      assert (ch0 = ch) by congruence. subst ch0. eauto.
    + rewrite (assoc_set_entry_other _ _ _ _ Eck), Ek. exact Hq.
  - destruct p; [|discriminate]. injection H as <-. cbn [fs_lookup].
    rewrite (assoc_app_found _ _ _ _ Ek). exact Hq.
Qed.

Lemma download_tree_keeps_files (E : Env) (r r' : Node) (q : list string)
      (d : list Byte.byte) :
  download_tree E r r' ->
  fs_lookup r q = Some (File d) -> fs_lookup r' q = Some (File d).
Proof.
  intros [->|[Hm|(r1 & t & nd & Hm & _ & Hc)]] Hq; auto.
  - exact (fs_mkdir_all_keeps_files _ _ _ _ _ Hm Hq).
  - apply (fs_create_keeps_files _ _ _ _ _ _ Hc).
    exact (fs_mkdir_all_keeps_files _ _ _ _ _ Hm Hq).
Qed.

(** The tree at the end of a run of [DownloadFromCid], in every outcome. *)
Lemma DownloadFromCid_tree (L : Lib) (E : Env) (c0 : string) (s : State) :
  download_tree E (fs_root s)
                (fs_root (final_state (DownloadFromCid L E c0 s))).
Proof.
  unfold DownloadFromCid, enter. sim.
  pose proof (StartIpfsNode_post E (set_calls (calls s ++ [OpDownload c0]) s))
    as Hst.
  destruct (StartIpfsNode E _) as [[[[ctx api] cancel] err] s1|e s1|s1|g s1];
    cbn [start_post] in Hst; try contradiction.
  - destruct Hst as (-> & [a ->] & -> & -> & Hclean & Hsame & Hout & Hrun).
    destruct Hsame as (Hfs & Hdags & Hcalls & Hsig & Hnot & Hspin). sim.
    unfold unixfs_Get, unixfs_Ls, await_dag, cid_Parse, os_MkdirAll,
      files_WriteTo, cancel_nodes, Context_Done.
    sim_lib.
    repeat (match goal with
          | |- download_tree _ _ (fs_root (final_state ?t)) =>
              let h := stuck t in destruct h eqn:?; sim_lib;
              rewrite ?Hfs, ?Hdags;
              try match goal with
                  | H : find_dag _ _ _ = _ |- _ => rewrite H
                  end;
              sim_lib
          end).
    all: rewrite ?Hfs in *.
    all: try (left; assumption || reflexivity).
    all: try (right; left; assumption).
    all: right; right; do 3 eexists; splits; eassumption.
  - destruct Hst as (_ & (Hfs & _) & _). sim. left. exact Hfs.
Qed.

(* ------------------------------------------------------------------ *)
(** ** The start-up sequence *)

(** X1.  [SetupPlugins] (lines 32-49) always returns, and changes nothing
    but the count of its runs.  It returns nil exactly when none of its
    three calls fails; a failure of the loader is reported as "error
    loading plugins", a failure of [Initialize] and a failure of [Inject]
    both as "error initializing plugins", the first failure deciding. *)
Theorem SetupPlugins_errors :
  forall (E : Env) (externalPluginsPath : string) (s : State),
    exists err,
      SetupPlugins E externalPluginsPath s
      = Ret err (set_setup_runs (S (setup_runs s)) s) /\
      (err = None <->
       faults E NewPluginLoader = None /\ faults E PluginsInitialize = None /\
       faults E PluginsInject = None) /\
      (forall e, faults E NewPluginLoader = Some e ->
                 err = Some ("error loading plugins: " ++ e)) /\
      (forall e, faults E NewPluginLoader = None ->
                 faults E PluginsInitialize = Some e ->
                 err = Some ("error initializing plugins: " ++ e)) /\
      (forall e, faults E NewPluginLoader = None ->
                 faults E PluginsInitialize = None ->
                 faults E PluginsInject = Some e ->
                 err = Some ("error initializing plugins: " ++ e)).
Proof.
  intros E p s.
  unfold SetupPlugins, loader_NewPluginLoader, PluginLoader_Initialize,
    PluginLoader_Inject. sim.
  destruct (faults E NewPluginLoader) as [e1|] eqn:H1; sim;
    [|destruct (faults E PluginsInitialize) as [e2|] eqn:H2; sim;
      [|destruct (faults E PluginsInject) as [e3|] eqn:H3; sim]].
  all: eexists; split; [reflexivity|].
  all: splits; try (intros; congruence).
  all: try (split; [discriminate | intros (? & ? & ?); discriminate]).
  split; auto.
Qed.

(** X2.  [CreateTempRepo] (lines 51-86) always returns.  Its error is nil
    exactly when none of [os.MkdirTemp], [config.Init], [fsrepo.Init]
    fails.  With an error the path it returns is empty and no repository
    has been initialised; without one, a repository has been initialised
    at the returned path, and its configuration has the four experimental
    features on when the flag [-experimental] is set and off when it is
    not.  The tree, the output and the running nodes are left alone. *)
Theorem CreateTempRepo_result :
  forall (E : Env) (s : State),
    exists repoPath err s',
      CreateTempRepo E s = Ret (repoPath, err) s' /\
      (err = None <->
       faults E OsMkdirTemp = None /\ faults E ConfigInit = None /\
       faults E FsrepoInit = None) /\
      (err <> None -> repoPath = "" /\ repos s' = repos s) /\
      (err = None ->
       exists cfg,
         repos s' = {| repo_path := repoPath; repo_config := cfg |} :: repos s /\
         experiments_all (flagExp E) (Experimental cfg)) /\
      fs_root s' = fs_root s /\ stdout s' = stdout s /\ running s' = running s.
Proof.
  intros E s.
  unfold CreateTempRepo, os_MkdirTemp, config_Init, fsrepo_Init. sim.
  destruct (faults E OsMkdirTemp) as [e1|] eqn:H1; sim;
    [|destruct (faults E ConfigInit) as [e2|] eqn:H2; sim;
      [|destruct (flagExp E) eqn:Hx; sim;
        (destruct (faults E FsrepoInit) as [e3|] eqn:H3; sim)]].
  all: do 3 eexists; split; [reflexivity|]; sim.
  all: splits; auto; try (intros; congruence).
  all: try (split; [discriminate | intros (? & ? & ?); discriminate]).
  all: try (split; auto; fail).
  all: intros _; eexists; split; [reflexivity|]; repeat split.
Qed.

(** X3.  [CreateNode] (lines 89-106) always returns.  With an error it
    returns no node and has started none (the state is as before); a path
    at which no repository was initialised gives an error.  Without an
    error the node is built online, as a full DHT node, on the repository
    found at the path, and it is the one node started. *)
Theorem CreateNode_result :
  forall (E : Env) (ctx : Context) (repoPath : string) (s : State),
    exists node err s',
      CreateNode E ctx repoPath s = Ret (node, err) s' /\
      (err <> None -> node = None /\ s' = s) /\
      (err = None ->
       exists r,
         find (fun r => String.eqb (repo_path r) repoPath) (repos s) = Some r /\
         node = Some {| node_cfg := {| Online := true; Routing := DHTOption;
                                       BuildRepo := Some r |} |} /\
         s' = set_running ({| node_cfg := {| Online := true;
                                             Routing := DHTOption;
                                             BuildRepo := Some r |} |}
                             :: running s) s) /\
      (find (fun r => String.eqb (repo_path r) repoPath) (repos s) = None ->
       err <> None).
Proof.
  intros E ctx p s. unfold CreateNode, fsrepo_Open, core_NewNode. sim.
  destruct (faults E FsrepoOpen) as [e1|] eqn:H1; sim;
    [|destruct (find _ (repos s)) as [r|] eqn:Hf; sim;
      [destruct (faults E CoreNewNode) as [e2|] eqn:H2; sim|]].
  all: do 3 eexists; split; [reflexivity|].
  all: splits; auto; try (intros; congruence); try discriminate.
  intros _. exists r. auto.
Qed.

(** X4.  [GetUnixfsNode] (lines 108-120) always returns and leaves the
    state as it is.  It returns a node or an error, never both and never
    neither.  For a path that names a tree (and no failure of [Stat] or of
    the read) the node is that tree without its hidden entries; an empty
    path and a path that names nothing give an error.  No node it returns
    has a hidden entry, at any depth. *)
Theorem GetUnixfsNode_result :
  forall (E : Env) (path : string) (s : State),
    exists f err,
      GetUnixfsNode E path s = Ret (f, err) s /\
      (f = None <-> err <> None) /\
      (forall n,
          faults E OsStat = None -> faults E NewSerialFile = None ->
          path <> "" ->
          fs_lookup (fs_root s) (resolve E path) = Some n ->
          f = Some (serial_tree false n)) /\
      (path = "" \/ fs_lookup (fs_root s) (resolve E path) = None ->
       f = None) /\
      (forall nd, f = Some nd -> no_hidden nd = true).
Proof.
  intros E path s.
  unfold GetUnixfsNode, os_Stat, files_NewSerialFile. sim.
  destruct (faults E OsStat) as [e1|] eqn:H1; sim;
    [|destruct (String.eqb_spec path "") as [Hp|Hp]; sim;
      [|destruct (fs_lookup (fs_root s) (resolve E path)) as [n|] eqn:Hl; sim;
        [destruct (faults E NewSerialFile) as [e2|] eqn:H2; sim;
         rewrite ?Hl; sim|]]].
  all: do 2 eexists; split; [reflexivity|].
  all: splits; try (intros; congruence); try discriminate.
  all: try (split; [reflexivity | discriminate]).
  all: try (split; [discriminate | intros H; now destruct H]).
  all: try (intros [?|?]; [contradiction | discriminate]).
  all: try (split; [discriminate | reflexivity]).
  intros nd [= <-]. apply no_hidden_serial.
Qed.

(** X5.  [StartIpfsNode] (lines 130-145) returns or panics, as the first
    failing call of the start-up decides.  When a call fails, it panics
    after its first two lines of output, and the message is "failed to
    spawn ephemeral node: " followed by the wrapping of that call
    ([spawn_wrap]) and the error of the call.  When none fails, it returns
    the background context, a core API that is not nil and a nil error,
    after its three lines of output: the error it returns is never
    set. *)
Theorem StartIpfsNode_first_failure :
  forall (E : Env) (s : State),
    (forall c e,
        first_fault E (calls_of_start s) = Some (c, e) ->
        exists s',
          StartIpfsNode E s
          = Panic ("failed to spawn ephemeral node: " ++ spawn_wrap c ++ e) s' /\
          stdout s' = (stdout s ++ firstn 2 start_lines)%list) /\
    (first_fault E (calls_of_start s) = None ->
     exists api s',
       StartIpfsNode E s
       = Ret (context_Background, Some api, cancel_nodes, None) s' /\
       stdout s' = (stdout s ++ start_lines)%list).
Proof.
  intros E s. pose proof (StartIpfsNode_outcome E s) as H.
  unfold start_outcome in H. split.
  - intros c e Hf. rewrite Hf in H. destruct H as (s' & H1 & _ & H2). eauto.
  - intros Hf. rewrite Hf in H. destruct H as (a & s' & H1 & _ & H2 & _).
    eauto.
Qed.

(** X6.  [SpawnEphemeral] (lines 147-173) always returns, with a nil error
    exactly when no call of the start-up fails.  Then the node it returns
    is online, a full DHT node, built on a repository that has just been
    initialised with the experimental features as the flag says, and the
    API it returns is the API of that node.  With an error the API is nil.
    A node that is returned has been started, also when the error is not
    nil (the API could not be made); when no node is returned, none has
    been started. *)
Theorem SpawnEphemeral_result :
  forall (E : Env) (ctx : Context) (s : State),
    exists api node err s',
      SpawnEphemeral E ctx s = Ret (api, node, err) s' /\
      (err = None <-> first_fault E (calls_of_start s) = None) /\
      (err = None ->
       exists nd r,
         node = Some nd /\ api = Some {| api_node := nd |} /\
         node_cfg nd = {| Online := true; Routing := DHTOption;
                          BuildRepo := Some r |} /\
         experiments_all (flagExp E) (Experimental (repo_config r)) /\
         repos s' = r :: repos s) /\
      (err <> None -> api = None) /\
      (forall nd, node = Some nd -> running s' = nd :: running s) /\
      (node = None -> running s' = running s).
Proof.
  intros E ctx s.
  unfold calls_of_start, start_calls.
  unfold SpawnEphemeral, sync_Once_Do, SetupPlugins,
    CreateTempRepo, CreateNode, loader_NewPluginLoader,
    PluginLoader_Initialize, PluginLoader_Inject, os_MkdirTemp, config_Init,
    fsrepo_Init, fsrepo_Open, core_NewNode, coreapi_NewCoreAPI.
  sim.
  destruct (loadPluginsOnce s) eqn:Ho; cbn [skipn first_fault]; sim.
  all: repeat (match goal with
          | |- context [faults ?E0 ?c] =>
              destruct (faults E0 c) eqn:?; sim
          | |- context [flagExp ?E0] => destruct (flagExp E0) eqn:?; sim
          end).
  all: rewrite ?find_repo_head; sim.
  all: do 4 eexists; split; [reflexivity|]; sim.
  all: splits; try (intros; congruence); try discriminate.
  all: try (split; [discriminate | intros; discriminate]).
  all: try (split; reflexivity).
  all: try (intros ? [= <-]; reflexivity).
  all: intros _; do 2 eexists; splits; try reflexivity;
    unfold experiments_all; cbn; auto.
Qed.

(* ------------------------------------------------------------------ *)
(** ** [UploadFiles] *)

(** X7.  The listing loop (lines 211-215 and 272-276) prints one line for
    each name it receives, in order, numbered from 1, and nothing else; it
    ends with the counter at the number of names. *)
Theorem print_names_lines :
  forall (c : list string) (s : State),
    exists out,
      print_names c 0 s
      = Ret (List.length c) (set_stdout (stdout s ++ out) s) /\
      List.length out = List.length c /\
      (forall k name,
          nth_error c k = Some name ->
          nth_error out k = Some (name_line (S k) name)).
Proof.
  intros c s. exists (names_lines c 0). splits.
  - now rewrite print_names_eq.
  - apply length_names_lines.
  - intros k name H. exact (nth_names_lines c 0 k name H).
Qed.

(** X8.  The panics of [UploadFiles] (lines 175-235), by the first thing
    that fails.  A failure of the start-up panics with the message of
    [StartIpfsNode] (the check of line 177 never fires).  After the
    start-up: a failure of [Stat] panics with "error: " and its error; an
    empty path, or a path that names nothing, panics with "error: stat
    <path>: no such file or directory", the node already running; and
    the first failing call among the read of the input, [Add], [Ls] and
    [Size] panics with its error after "error: ", or, for [Ls], after
    "could not find Ls from Cid: ". *)
Theorem UploadFiles_panic_messages :
  forall (L : Lib) (E : Env) (p : string) (s : State),
    (forall c e,
        first_fault E (calls_of_start s) = Some (c, e) ->
        exists s',
          UploadFiles L E p s
          = Panic ("failed to spawn ephemeral node: " ++ spawn_wrap c ++ e) s') /\
    (first_fault E (calls_of_start s) = None ->
     (forall e,
         faults E OsStat = Some e ->
         exists s', UploadFiles L E p s = Panic ("error: " ++ e) s') /\
     (faults E OsStat = None ->
      p = "" \/ fs_lookup (fs_root s) (resolve E p) = None ->
      exists s',
        UploadFiles L E p s
        = Panic ("error: stat " ++ p ++ ": no such file or directory") s' /\
        stdout s' = (stdout s ++ start_lines)%list /\ running s' <> []) /\
     (forall c e,
         faults E OsStat = None -> p <> "" ->
         fs_lookup (fs_root s) (resolve E p) <> None ->
         first_fault E [NewSerialFile; UnixfsAdd; UnixfsLs; NodeSize]
         = Some (c, e) ->
         exists s', UploadFiles L E p s = Panic (upload_wrap c ++ e) s')).
Proof.
  intros L E p s. split.
  - intros c e H. unfold UploadFiles, enter. sim.
    destruct (StartIpfsNode_fails E (set_calls (calls s ++ [OpUpload p]) s) c e H)
      as (s' & -> & _). eauto.
  - intros H. splits.
    + intros e He. upload_started H. use_facts. eauto.
    + intros He Hp. upload_started H.
      destruct (String.eqb_spec p "") as [->|Hne]; use_facts.
      * eexists. splits; eauto.
      * destruct Hp as [Hp|Hp]; [contradiction|]. use_facts.
        eexists. splits; eauto.
    + intros c e He Hp Hl Hf. upload_started H.
      apply String.eqb_neq in Hp.
      destruct (fs_lookup (fs_root s) (resolve E p)) as [n|] eqn:Hn;
        [|congruence].
      cbn [first_fault] in Hf.
      destruct (IsDir n) eqn:Hd.
      all: destruct (faults E NewSerialFile) as [e1|] eqn:H1;
        [injection Hf as <- <-; use_facts; eauto|].
      all: destruct (faults E UnixfsAdd) as [e2|] eqn:H2;
        [injection Hf as <- <-; use_facts; eauto|].
      all: destruct (faults E UnixfsLs) as [e3|] eqn:H3;
        [injection Hf as <- <-; use_facts; eauto|].
      all: destruct (faults E NodeSize) as [e4|] eqn:H4;
        [injection Hf as <- <-; use_facts; eauto|discriminate].
Qed.

(** X9.  What [UploadFiles] prints for a regular file, up to its wait:
    the three lines of the start-up, the message with the CID of the
    one-entry directory that holds the file under its base name, the one
    listing line "1 file name: <base name>", and the seeding size, which is
    the length of the file.  That directory is what the node then
    provides. *)
Theorem UploadFiles_single_file_transcript :
  forall (L : Lib) (E : Env) (p : string) (s : State) (d : list Byte.byte),
    upload_clean E p s -> signals s = [] ->
    fs_lookup (fs_root s) (resolve E p) = Some (File d) ->
    exists s',
      UploadFiles L E p s = Blocked s' /\
      local_dags s' = Dir [(Filepath.Base p, File d)] :: local_dags s /\
      stdout s'
      = (stdout s ++ start_lines
           ++ [added_message
                 ("/ipfs/" ++ cid_String L
                                (dag_cid L (Dir [(Filepath.Base p, File d)])));
               name_line 1 (Filepath.Base p);
               ("Seeding size: "
                  ++ humanize_Bytes L (uint64 (Z.of_nat (List.length d)))
                  ++ nl)%string])%list.
Proof.
  intros L E p s d Hc Hs Hl.
  destruct (upload_waits L E p s Hc Hs) as (n & s' & Hl' & Hu & Hp & _).
  assert (n = File d) by congruence. subst n.
  destruct Hp as (_ & _ & Ho & _ & Hd).
  exists s'. splits; auto.
  rewrite Ho. unfold seeding_lines, size_line, cid_text.
  cbn [upload_node IsDir serial_tree ls_names map fst names_lines app tree_size].
  rewrite Z.add_0_r. reflexivity.
Qed.

Lemma UploadFiles_single_file_transcript_witness :
  exists s',
    UploadFiles Example.lib (Example.env []) "a.txt"
                (Example.start Example.root []) = Blocked s' /\
    local_dags s'
    = Dir [(Filepath.Base "a.txt", File (Example.bytes "hello"))]
        :: local_dags (Example.start Example.root []) /\
    stdout s'
    = (stdout (Example.start Example.root []) ++ start_lines
         ++ [added_message
               ("/ipfs/"
                  ++ cid_String Example.lib
                       (dag_cid Example.lib
                          (Dir [(Filepath.Base "a.txt",
                                 File (Example.bytes "hello"))])));
             name_line 1 (Filepath.Base "a.txt");
             ("Seeding size: "
                ++ humanize_Bytes Example.lib
                     (uint64 (Z.of_nat
                                (List.length (Example.bytes "hello"))))
                ++ nl)%string])%list.
Proof.
  apply (UploadFiles_single_file_transcript
           Example.lib (Example.env []) "a.txt"
           (Example.start Example.root []) (Example.bytes "hello")).
  - unfold upload_clean, startup_clean. vm_compute.
    repeat split; discriminate.
  - reflexivity.
  - reflexivity.
Defined.

(** X10.  What [UploadFiles] prints for a directory, up to its wait: after
    the start-up and the message with the CID of the directory without its
    hidden entries, one listing line for each entry of the directory that
    is not hidden, in the order of the listing and numbered from 1, then
    the line of the seeding size, and nothing after it.  The tree the node
    provides has no hidden entry at any depth. *)
Theorem UploadFiles_directory_listing :
  forall (L : Lib) (E : Env) (p : string) (s : State)
         (es : list (string * Node)),
    upload_clean E p s -> signals s = [] ->
    fs_lookup (fs_root s) (resolve E p) = Some (Dir es) ->
    exists s' out last,
      UploadFiles L E p s = Blocked s' /\
      local_dags s' = serial_tree false (Dir es) :: local_dags s /\
      no_hidden (serial_tree false (Dir es)) = true /\
      stdout s'
      = (stdout s ++ start_lines
           ++ added_message
                ("/ipfs/"
                   ++ cid_String L (dag_cid L (serial_tree false (Dir es))))
           :: out ++ [last])%list /\
      List.length out = List.length (visible_names es) /\
      (forall k name,
          nth_error (visible_names es) k = Some name ->
          nth_error out k = Some (name_line (S k) name)) /\
      GoStrings.HasPrefix last "Seeding size: " = true.
Proof.
  intros L E p s es Hc Hs Hl.
  destruct (upload_waits L E p s Hc Hs) as (n & s' & Hl' & Hu & Hp & _).
  assert (n = Dir es) by congruence. subst n.
  destruct (published_lines _ _ _ _ _ _ Hp) as (last & Ho & Hlast).
  destruct Hp as (_ & _ & _ & _ & Hd).
  exists s', (names_lines (visible_names es) 0), last. splits; auto.
  - apply no_hidden_serial.
  - rewrite Ho. unfold cid_text.
    change (upload_node p (Dir es)) with (serial_tree false (Dir es)).
    change (ls_names L (serial_tree false (Dir es)))
      with (map fst (serial_entries false es)).
    now rewrite serial_entries_names.
  - apply length_names_lines.
  - intros k name H. exact (nth_names_lines _ 0 k name H).
Qed.

Lemma UploadFiles_directory_listing_witness :
  exists s' out last,
    UploadFiles Example.lib (Example.env []) "docs"
                (Example.start Example.root []) = Blocked s' /\
    local_dags s'
    = serial_tree false (Dir [("b.txt", File (Example.bytes "bee"));
                              (".secret", File (Example.bytes "key"))])
        :: local_dags (Example.start Example.root []) /\
    no_hidden
      (serial_tree false (Dir [("b.txt", File (Example.bytes "bee"));
                               (".secret", File (Example.bytes "key"))]))
    = true /\
    stdout s'
    = (stdout (Example.start Example.root []) ++ start_lines
         ++ added_message
              ("/ipfs/"
                 ++ cid_String Example.lib
                      (dag_cid Example.lib
                         (serial_tree false
                            (Dir [("b.txt", File (Example.bytes "bee"));
                                  (".secret", File (Example.bytes "key"))]))))
         :: out ++ [last])%list /\
    List.length out
    = List.length
        (visible_names [("b.txt", File (Example.bytes "bee"));
                        (".secret", File (Example.bytes "key"))]) /\
    (forall k name,
        nth_error
          (visible_names [("b.txt", File (Example.bytes "bee"));
                          (".secret", File (Example.bytes "key"))]) k
        = Some name ->
        nth_error out k = Some (name_line (S k) name)) /\
    GoStrings.HasPrefix last "Seeding size: " = true.
Proof.
  apply (UploadFiles_directory_listing
           Example.lib (Example.env []) "docs"
           (Example.start Example.root [])
           [("b.txt", File (Example.bytes "bee"));
            (".secret", File (Example.bytes "key"))]).
  - unfold upload_clean, startup_clean. vm_compute.
    repeat split; discriminate.
  - reflexivity.
  - reflexivity.
Defined.

(** X11.  What the CID depends on besides the content.  Two publishes that
    find the same tree, by whatever paths, on whatever nodes, add the same
    node and print the same CID when the tree is a directory (its own name
    and place are not part of it), and when it is a regular file given by
    two paths with the same base name (the file is published under that
    name). *)
Theorem UploadFiles_cid_by_name :
  forall (L : Lib) (E1 E2 : Env) (p1 p2 : string) (s1 s2 : State) (n : Node),
    upload_clean E1 p1 s1 -> upload_clean E2 p2 s2 ->
    signals s1 = [] -> signals s2 = [] ->
    fs_lookup (fs_root s1) (resolve E1 p1) = Some n ->
    fs_lookup (fs_root s2) (resolve E2 p2) = Some n ->
    IsDir n = true \/ Filepath.Base p1 = Filepath.Base p2 ->
    exists nd s1' s2',
      UploadFiles L E1 p1 s1 = Blocked s1' /\
      UploadFiles L E2 p2 s2 = Blocked s2' /\
      local_dags s1' = nd :: local_dags s1 /\
      local_dags s2' = nd :: local_dags s2 /\
      In (added_message ("/ipfs/" ++ cid_String L (dag_cid L nd))) (stdout s1') /\
      In (added_message ("/ipfs/" ++ cid_String L (dag_cid L nd))) (stdout s2').
Proof.
  intros L E1 E2 p1 p2 s1 s2 n Hc1 Hc2 Hs1 Hs2 Hl1 Hl2 Hn.
  destruct (upload_waits L E1 p1 s1 Hc1 Hs1) as (n1 & s1' & Hl1' & Hu1 & Hp1 & _).
  destruct (upload_waits L E2 p2 s2 Hc2 Hs2) as (n2 & s2' & Hl2' & Hu2 & Hp2 & _).
  assert (n1 = n) by congruence. assert (n2 = n) by congruence. subst n1 n2.
  assert (He : upload_node p2 n = upload_node p1 n).
  { unfold upload_node. destruct Hn as [->| ->]; reflexivity. }
  rewrite He in Hp2.
  destruct (published_serving _ _ _ _ _ _ _ Hp1) as [Ha1 Hd1].
  destruct (published_serving _ _ _ _ _ _ _ Hp2) as [Ha2 Hd2].
  rewrite He in Ha2.
  exists (upload_node p1 n), s1', s2'. splits; auto.
Qed.

Lemma UploadFiles_cid_by_name_witness :
  exists nd s1' s2',
    UploadFiles Example.lib (Example.env []) "a.txt"
                (Example.start Example.root []) = Blocked s1' /\
    UploadFiles Example.lib Example.env2 "/home/u/../u/./a.txt"
                (Example.start Example.root []) = Blocked s2' /\
    local_dags s1' = nd :: local_dags (Example.start Example.root []) /\
    local_dags s2' = nd :: local_dags (Example.start Example.root []) /\
    In (added_message
          ("/ipfs/" ++ cid_String Example.lib (dag_cid Example.lib nd)))
       (stdout s1') /\
    In (added_message
          ("/ipfs/" ++ cid_String Example.lib (dag_cid Example.lib nd)))
       (stdout s2').
Proof.
  apply (UploadFiles_cid_by_name
           Example.lib (Example.env []) Example.env2
           "a.txt" "/home/u/../u/./a.txt"
           (Example.start Example.root []) (Example.start Example.root [])
           (File (Example.bytes "hello"))).
  - unfold upload_clean, startup_clean. vm_compute.
    repeat split; discriminate.
  - unfold upload_clean, startup_clean. vm_compute.
    repeat split; discriminate.
  - reflexivity.
  - reflexivity.
  - reflexivity.
  - reflexivity.
  - right. reflexivity.
Defined.

(** X12.  A signal other than SIGINT and SIGTERM is not caught (line 227
    registers those two only): when it is the first to arrive while
    [UploadFiles] waits, the process is ended by it.  Nothing is printed
    after the line of the seeding size (no "Adios!"), and the deferred
    cancel has not run: the node still held the DAG. *)
Theorem UploadFiles_other_signal :
  forall (L : Lib) (E : Env) (p : string) (s : State)
         (g : Signal) (rest : list Signal),
    upload_clean E p s -> signals s = g :: rest ->
    g <> SIGINT -> g <> SIGTERM ->
    exists n s' last,
      fs_lookup (fs_root s) (resolve E p) = Some n /\
      UploadFiles L E p s = Killed g s' /\
      process_end (main L E p "" s) = Signaled g /\
      stdout s'
      = (stdout s ++ start_lines
           ++ added_message (cid_text L (upload_node p n))
           :: names_lines (ls_names L (upload_node p n)) 0 ++ [last])%list /\
      GoStrings.HasPrefix last "Seeding size: " = true /\
      local_dags s' = upload_node p n :: local_dags s /\
      signals s' = rest.
Proof.
  intros L E p s g rest Hc Hs H1 H2.
  destruct (upload_killed L E p s g rest Hc Hs H1 H2)
    as (n & s' & Hl & Hu & Hp & Hr).
  destruct (published_lines _ _ _ _ _ _ Hp) as (last & Ho & Hlast).
  destruct Hp as (_ & _ & _ & _ & Hd).
  exists n, s', last. splits; auto.
  destruct Hc as (_ & _ & _ & _ & _ & _ & Hp & _).
  apply String.eqb_neq in Hp. unfold main.
  cbn [String.eqb negb orb]. rewrite Hp. cbn [negb].
  destruct (bind_ret_final (UploadFiles L E p) s) as [_ ->].
  now rewrite Hu.
Qed.

Lemma UploadFiles_other_signal_witness :
  exists n s' last,
    fs_lookup (fs_root (Example.start Example.root [SIGHUP; SIGINT]))
              (resolve (Example.env []) "a.txt") = Some n /\
    UploadFiles Example.lib (Example.env []) "a.txt"
                (Example.start Example.root [SIGHUP; SIGINT])
    = Killed SIGHUP s' /\
    process_end (main Example.lib (Example.env []) "a.txt" ""
                      (Example.start Example.root [SIGHUP; SIGINT]))
    = Signaled SIGHUP /\
    stdout s'
    = (stdout (Example.start Example.root [SIGHUP; SIGINT]) ++ start_lines
         ++ added_message (cid_text Example.lib (upload_node "a.txt" n))
         :: names_lines (ls_names Example.lib (upload_node "a.txt" n)) 0
         ++ [last])%list /\
    GoStrings.HasPrefix last "Seeding size: " = true /\
    local_dags s'
    = upload_node "a.txt" n
        :: local_dags (Example.start Example.root [SIGHUP; SIGINT]) /\
    signals s' = [SIGINT].
Proof.
  apply (UploadFiles_other_signal
           Example.lib (Example.env []) "a.txt"
           (Example.start Example.root [SIGHUP; SIGINT]) SIGHUP [SIGINT]).
  - unfold upload_clean, startup_clean. vm_compute.
    repeat split; discriminate.
  - reflexivity.
  - discriminate.
  - discriminate.
Defined.

(** X13.  [UploadFiles] only reads the file tree: however it ends (return,
    panic, wait, signal), the tree is the one it found.  (The temporary
    repository of its node is kept apart from the tree, in [repos].) *)
Theorem UploadFiles_reads_only :
  forall (L : Lib) (E : Env) (p : string) (s : State),
    fs_root (final_state (UploadFiles L E p s)) = fs_root s.
Proof.
  intros L E p s.
  destruct (UploadFiles_result L E p s) as
    [? ? _ _ H _|? ? _ _ _ (_ & H & _) _ _|? ? ? ? _ _ _ _ _ (_ & H & _) _
     |? ? ? ? _ _ _ _ (_ & H & _) _ _]; exact H.
Qed.

(* ------------------------------------------------------------------ *)
(** ** [GetCidStrFromString] *)

(** X14.  [GetCidStrFromString] (lines 237-242) is idempotent: the string
    it returns is returned unchanged when it is given back. *)
Theorem GetCidStrFromString_idempotent :
  forall s : string,
    exists r,
      GetCidStrFromString s = Some r /\ GetCidStrFromString r = Some r.
Proof.
  intros s.
  destruct (GetCidStrFromString_total s)
    as (suffix & l & r & t & Hr & _ & Hn & Hd & _ & _ & Hb & He).
  exists r. split; [exact Hr|].
  apply strip_again; auto.
  exact (all_in_no_slash_trim _ _ _ _ Hd Hn).
Qed.

(** X15.  The strings [GetCidStrFromString] returns unchanged are exactly
    those without a ['/'] that neither start nor end with a space, a
    carriage return or a newline. *)
Theorem GetCidStrFromString_fixpoint :
  forall s : string,
    GetCidStrFromString s = Some s <->
    no_slash s = true /\ starts_clean cid_cutset s /\ ends_clean cid_cutset s.
Proof.
  intros s. split.
  - intros H.
    destruct (GetCidStrFromString_total s)
      as (suffix & l & r & t & Hr & _ & _ & _ & _ & _ & Hb & He).
    assert (r = s) by congruence. subst r.
    splits; auto. exact (GetCidStrFromString_no_slash _ _ H).
  - intros (Hn & Hb & He). now apply strip_again.
Qed.

(** X16.  [GetCidStrFromString] never looks at what stands before the last
    ['/']: any prefix gives the same result; the prefix need not be
    [/ipfs]. *)
Theorem GetCidStrFromString_last_segment :
  forall pre s : string,
    GetCidStrFromString (pre ++ String "/" s)
    = GetCidStrFromString (String "/" s).
Proof.
  intros pre s.
  destruct (LastIndex_slash s) as [[_ Hn]|(p & suf & -> & Hn & _)].
  - rewrite (GetCidStrFromString_slash pre s Hn).
    exact (eq_sym (GetCidStrFromString_slash "" s Hn)).
  - replace (pre ++ String "/" (p ++ String "/" suf))
      with ((pre ++ String "/" p) ++ String "/" suf).
    + rewrite (GetCidStrFromString_slash _ suf Hn).
      exact (eq_sym (GetCidStrFromString_slash (String "/" p) suf Hn)).
    + rewrite sapp_assoc. reflexivity.
Qed.

(* ------------------------------------------------------------------ *)
(** ** [DownloadFromCid] *)

(** X17.  The panics of [DownloadFromCid] (lines 244-298), by the first
    thing that fails.  A failure of the start-up panics with the message
    of [StartIpfsNode].  After the start-up, with [c] the stripped string:
    when [c] does not parse, the panic message starts with "error: ",
    nothing has been printed after the start-up and the tree is
    untouched; a failure of [Get] panics with "error: " and its error; the
    first failing call among [Ls], [MkdirAll] and [WriteTo] panics with
    its error after "error: ", or, for [Ls], after "could not find Ls
    info from Cid: "; and when [Download] cannot be made (a regular file
    is in the way) the message is "error: mkdir Download: not a
    directory".  In each of these the deferred cancel has run: no node is
    left running. *)
Theorem DownloadFromCid_panic_messages :
  forall (L : Lib) (E : Env) (cidStr : string) (s : State),
    (forall c e,
        first_fault E (calls_of_start s) = Some (c, e) ->
        exists s',
          DownloadFromCid L E cidStr s
          = Panic ("failed to spawn ephemeral node: " ++ spawn_wrap c ++ e) s') /\
    (first_fault E (calls_of_start s) = None ->
     forall c,
       GetCidStrFromString cidStr = Some c ->
       (cid_Decode L c = None ->
        exists x s',
          DownloadFromCid L E cidStr s = Panic ("error: " ++ x) s' /\
          stdout s' = (stdout s ++ start_lines)%list /\
          fs_root s' = fs_root s /\ running s' = []) /\
       (forall cid,
           cid_Decode L c = Some cid ->
           (forall e,
               faults E UnixfsGet = Some e ->
               exists s',
                 DownloadFromCid L E cidStr s = Panic ("error: " ++ e) s' /\
                 fs_root s' = fs_root s /\ running s' = []) /\
           (forall nd c1 e,
               faults E UnixfsGet = None ->
               find_dag L cid (local_dags s ++ remote_dags E) = Some nd ->
               fs_mkdir_all (resolve E "Download") (fs_root s) <> None ->
               first_fault E [UnixfsLs; OsMkdirAll; FilesWriteTo]
               = Some (c1, e) ->
               exists s',
                 DownloadFromCid L E cidStr s
                 = Panic (download_wrap c1 ++ e) s' /\
                 running s' = []) /\
           (forall nd,
               faults E UnixfsGet = None ->
               find_dag L cid (local_dags s ++ remote_dags E) = Some nd ->
               faults E UnixfsLs = None -> faults E OsMkdirAll = None ->
               fs_mkdir_all (resolve E "Download") (fs_root s) = None ->
               exists s',
                 DownloadFromCid L E cidStr s
                 = Panic "error: mkdir Download: not a directory" s' /\
                 fs_root s' = fs_root s /\ running s' = []))).
Proof.
  intros L E c0 s. split.
  - intros c e H. unfold DownloadFromCid, enter. sim.
    destruct (StartIpfsNode_fails E (set_calls (calls s ++ [OpDownload c0]) s)
                                  c e H) as (s' & -> & _). eauto.
  - intros H c Hc. split; [|intros cid Hd; splits].
    + intros Hd. download_started H. use_facts.
      do 2 eexists. splits; eauto.
    + intros e He. download_started H. use_facts.
      eexists. splits; eauto.
    + intros nd c1 e Hg Hf Hm Hff. download_started H.
      destruct (fs_mkdir_all (resolve E "Download") (fs_root s)) as [r1|] eqn:Hmk;
        [|congruence].
      cbn [first_fault] in Hff.
      destruct (faults E UnixfsLs) as [e1|] eqn:H1;
        [injection Hff as <- <-; use_facts; eauto|].
      destruct (faults E OsMkdirAll) as [e2|] eqn:H2;
        [injection Hff as <- <-; use_facts; eauto|].
      destruct (faults E FilesWriteTo) as [e3|] eqn:H3;
        [injection Hff as <- <-; use_facts; eauto|discriminate].
    + intros nd Hg Hf Hl Hm Hmk. download_started H. use_facts.
      eexists. splits; eauto.
Qed.

(** X18.  What [DownloadFromCid] has printed when it returns: the three
    lines of the start-up, the line "Fetching a file from the network with
    CID <c>" for the stripped string [c], one listing line for each name
    that [Ls] gives for the fetched node, and the line "Wrote the files to
    ./Download/<c>", in this order and nothing else.  The deferred cancel
    has run: the node is stopped and provides nothing. *)
Theorem DownloadFromCid_transcript :
  forall (L : Lib) (E : Env) (cidStr : string) (s s' : State)
         (out : string * error * Z),
    DownloadFromCid L E cidStr s = Ret out s' ->
    exists c cid nd,
      GetCidStrFromString cidStr = Some c /\
      cid_Decode L c = Some cid /\
      find_dag L cid (local_dags s ++ remote_dags E) = Some nd /\
      stdout s'
      = (stdout s ++ start_lines
           ++ ("Fetching a file from the network with CID " ++ c ++ nl)%string
           :: names_lines (ls_names L nd) 0
           ++ [("Wrote the files to ./Download/" ++ c ++ nl)%string])%list /\
      running s' = [] /\ local_dags s' = [].
Proof.
  intros L E c0 s s' [[out err] pr] H.
  destruct (download_Ret_inv _ _ _ _ _ _ _ _ H)
    as (c & nd & r1 & r2 & W & _ & _ & _ & _ & _ & Ho & Hd & Hr).
  destruct W as ((cid & (_ & Hc & Hp & _) & Hf) & _).
  exists c, cid, nd. splits; auto.
Qed.

Lemma DownloadFromCid_transcript_witness :
  exists c cid nd,
    GetCidStrFromString ("/ipfs/" ++ Example.wrapped_cid) = Some c /\
    cid_Decode Example.lib c = Some cid /\
    find_dag Example.lib cid
             (local_dags (Example.start Example.root [])
                ++ remote_dags (Example.env [Example.wrapped])) = Some nd /\
    stdout Example.fetched
    = (stdout (Example.start Example.root []) ++ start_lines
         ++ ("Fetching a file from the network with CID " ++ c ++ nl)%string
         :: names_lines (ls_names Example.lib nd) 0
         ++ [("Wrote the files to ./Download/" ++ c ++ nl)%string])%list /\
    running Example.fetched = [] /\ local_dags Example.fetched = [].
Proof.
  apply (DownloadFromCid_transcript
           Example.lib (Example.env [Example.wrapped])
           ("/ipfs/" ++ Example.wrapped_cid) (Example.start Example.root [])
           Example.fetched
           ("./Download/" ++ Example.wrapped_cid, None, 100%Z)).
  vm_compute. reflexivity.
Defined.

(** X19.  [DownloadFromCid] does not overwrite.  Once a fetch of a CID
    string has returned, a later fetch of the same string from the same
    working directory, finding the tree as the first one left it, does not
    return: [WriteTo] refuses the path that exists, and the run panics
    (or waits for providers, when there are none any more). *)
Theorem DownloadFromCid_twice :
  forall (L L2 : Lib) (E E2 : Env) (cidStr : string) (s s' s2 : State)
         (out : string * error * Z),
    DownloadFromCid L E cidStr s = Ret out s' ->
    cwd E2 = cwd E -> fs_root s2 = fs_root s' ->
    process_end (DownloadFromCid L2 E2 cidStr s2) = Exited 2 \/
    process_end (DownloadFromCid L2 E2 cidStr s2) = StillRunning.
Proof.
  intros L L2 E E2 c0 s s' s2 [[out err] pr] H Hcwd Hfs.
  destruct (download_output _ _ _ _ _ _ _ _ H)
    as (c & cid & nd & Hc & _ & _ & Hpn & _ & (es & Hd) & Hl).
  destruct (DownloadFromCid L2 E2 c0 s2)
    as [[[out2 err2] pr2] s2'|e s2'|s2'|g s2'] eqn:H2;
    cbn [process_end]; auto.
  - exfalso.
    destruct (download_Ret_inv _ _ _ _ _ _ _ _ H2)
      as (c' & nd' & r1 & r2 & W & _).
    destruct W as ((cid' & (_ & Hc' & _) & _) & _ & _ & _ & Hm & Hfree & _).
    assert (c' = c) by congruence. subst c'.
    rewrite (resolve_cwd E E2 _ Hcwd), Hfs in Hm.
    rewrite (fs_mkdir_all_existing _ _ _ Hd) in Hm. injection Hm as <-.
    rewrite (resolve_cwd E E2 _ Hcwd), (resolve_target E c Hpn) in Hfree.
    congruence.
  - exfalso. exact (download_not_Killed _ _ _ _ _ _ H2).
Qed.

Lemma DownloadFromCid_twice_witness :
  process_end
    (DownloadFromCid Example.lib (Example.env [Example.wrapped])
                     ("/ipfs/" ++ Example.wrapped_cid)
                     (Example.start (fs_root Example.fetched) []))
  = Exited 2 \/
  process_end
    (DownloadFromCid Example.lib (Example.env [Example.wrapped])
                     ("/ipfs/" ++ Example.wrapped_cid)
                     (Example.start (fs_root Example.fetched) []))
  = StillRunning.
Proof.
  apply (DownloadFromCid_twice
           Example.lib Example.lib
           (Example.env [Example.wrapped]) (Example.env [Example.wrapped])
           ("/ipfs/" ++ Example.wrapped_cid)
           (Example.start Example.root []) Example.fetched
           (Example.start (fs_root Example.fetched) [])
           ("./Download/" ++ Example.wrapped_cid, None, 100%Z)).
  - vm_compute. reflexivity.
  - reflexivity.
  - reflexivity.
Defined.

(** X20.  [DownloadFromCid] leaves the regular files that exist alone:
    however it ends, every path that led to a regular file before the run
    leads to the same bytes after it.  ([MkdirAll] and [WriteTo] only
    create.) *)
Theorem DownloadFromCid_keeps_files :
  forall (L : Lib) (E : Env) (cidStr : string) (s : State)
         (q : list string) (d : list Byte.byte),
    fs_lookup (fs_root s) q = Some (File d) ->
    fs_lookup (fs_root (final_state (DownloadFromCid L E cidStr s))) q
    = Some (File d).
Proof.
  intros L E c0 s q d Hq.
  pose proof (DownloadFromCid_tree L E c0 s) as T.
  exact (download_tree_keeps_files E _ _ q d T Hq).
Qed.

Lemma DownloadFromCid_keeps_files_witness :
  fs_lookup
    (fs_root
       (final_state
          (DownloadFromCid Example.lib (Example.env [Example.wrapped])
                           ("/ipfs/" ++ Example.wrapped_cid)
                           (Example.start Example.root []))))
    ["home"; "u"; "docs"; ".secret"]
  = Some (File (Example.bytes "key")).
Proof.
  apply (DownloadFromCid_keeps_files
           Example.lib (Example.env [Example.wrapped])
           ("/ipfs/" ++ Example.wrapped_cid) (Example.start Example.root [])
           ["home"; "u"; "docs"; ".secret"] (Example.bytes "key")).
  reflexivity.
Defined.

(* ------------------------------------------------------------------ *)
(** ** [main] *)

(** X21.  Download mode (lines 310-312).  With [-c] not empty, [main] ends
    as [DownloadFromCid] of that flag ends and leaves the state it leaves,
    whatever [-f] is: the process exits with status 0 exactly when the
    fetch returned, and then the fetched tree is in [Download] under the
    stripped CID string. *)
Theorem main_download_mode :
  forall (L : Lib) (E : Env) (flagFilePath flagCid : string) (s : State),
    flagCid <> "" ->
    final_state (main L E flagFilePath flagCid s)
    = final_state (DownloadFromCid L E flagCid s) /\
    process_end (main L E flagFilePath flagCid s)
    = process_end (DownloadFromCid L E flagCid s) /\
    (process_end (main L E flagFilePath flagCid s) = Exited 0 <->
     exists out s', DownloadFromCid L E flagCid s = Ret out s') /\
    (process_end (main L E flagFilePath flagCid s) = Exited 0 ->
     exists c nd,
       GetCidStrFromString flagCid = Some c /\
       fs_lookup (fs_root (final_state (main L E flagFilePath flagCid s)))
                 (resolve E "Download" ++ [c])%list = Some nd).
Proof.
  intros L E f c s Hc. apply String.eqb_neq in Hc.
  assert (Hm : main L E f c s = (_ <- DownloadFromCid L E c ;; ret tt) s).
  { unfold main. rewrite Hc. reflexivity. }
  destruct (bind_ret_final (DownloadFromCid L E c) s) as [Hf Hp].
  rewrite Hm, Hf, Hp.
  destruct (DownloadFromCid L E c s) as [[[out err] pr] s'|e s'|s'|g s'] eqn:Hd;
    cbn [process_end final_state]; splits; auto.
  - split; eauto.
  - intros _.
    destruct (download_output _ _ _ _ _ _ _ _ Hd)
      as (c' & cid & nd & Hs & _ & _ & _ & _ & _ & Hl). eauto.
  - split; [discriminate | intros (? & ? & ?); discriminate].
  - discriminate.
  - split; [discriminate | intros (? & ? & ?); discriminate].
  - discriminate.
  - split; [discriminate | intros (? & ? & ?); discriminate].
  - discriminate.
Qed.

Lemma main_download_mode_witness :
  final_state (main Example.lib (Example.env [Example.wrapped])
                    "a.txt" ("/ipfs/" ++ Example.wrapped_cid)
                    (Example.start Example.root []))
  = final_state (DownloadFromCid Example.lib (Example.env [Example.wrapped])
                                 ("/ipfs/" ++ Example.wrapped_cid)
                                 (Example.start Example.root [])) /\
  process_end (main Example.lib (Example.env [Example.wrapped])
                    "a.txt" ("/ipfs/" ++ Example.wrapped_cid)
                    (Example.start Example.root []))
  = process_end (DownloadFromCid Example.lib (Example.env [Example.wrapped])
                                 ("/ipfs/" ++ Example.wrapped_cid)
                                 (Example.start Example.root [])) /\
  (process_end (main Example.lib (Example.env [Example.wrapped])
                     "a.txt" ("/ipfs/" ++ Example.wrapped_cid)
                     (Example.start Example.root [])) = Exited 0 <->
   exists out s',
     DownloadFromCid Example.lib (Example.env [Example.wrapped])
                     ("/ipfs/" ++ Example.wrapped_cid)
                     (Example.start Example.root []) = Ret out s') /\
  (process_end (main Example.lib (Example.env [Example.wrapped])
                     "a.txt" ("/ipfs/" ++ Example.wrapped_cid)
                     (Example.start Example.root [])) = Exited 0 ->
   exists c nd,
     GetCidStrFromString ("/ipfs/" ++ Example.wrapped_cid) = Some c /\
     fs_lookup
       (fs_root
          (final_state
             (main Example.lib (Example.env [Example.wrapped])
                   "a.txt" ("/ipfs/" ++ Example.wrapped_cid)
                   (Example.start Example.root []))))
       (resolve (Example.env [Example.wrapped]) "Download" ++ [c])%list
     = Some nd).
Proof.
  apply (main_download_mode
           Example.lib (Example.env [Example.wrapped])
           "a.txt" ("/ipfs/" ++ Example.wrapped_cid)
           (Example.start Example.root [])).
  discriminate.
Defined.
